(** * Arduino IR decoder: pulse capture and NEC decoding

    A shallow embedding of the two sketches of the repository,
    [arduino_ir_decoder.pde] and [arduino_ir_decoder.ino], and the
    properties of their timer interrupt handler, of the NEC decoder and
    of the tolerance matcher.

    Target: AVR (ATmega, avr-gcc).  There [int] and [unsigned int] are
    16 bits wide, [uint16_t] is [unsigned int] and [uint32_t] is
    [unsigned long]; arithmetic on [uint16_t] operands is therefore done
    modulo 2^16.  Every wrap-around is written out with [u16]/[u32]. *)

From Stdlib Require Import ZArith Lia Bool String Ascii.
From stdpp Require Import base list.

Local Open Scope Z_scope.

(** ** Machine integers *)

Definition u16 (x : Z) : Z := x mod 65536.
Definition u32 (x : Z) : Z := x mod 4294967296.

(** ** Constants ([#define]s of the sketches) *)

Definition PULSE_TIME_BLOCKS_IN_MICROSECONDS : Z := 50.
Definition PULSE_DECODING_MARGIN_OF_ERROR : Z := 150.

Definition STATE_IDLE : Z := 0.
Definition STATE_MARK : Z := 1.
Definition STATE_SPACE : Z := 2.
Definition STATE_FINISHED : Z := 3.

(** Size of [volatile uint16_t ir_pulses[200]]. *)
Definition IR_PULSES_SIZE : Z := 200.

(** ** The serial port

    [Serial.print] is modelled by the sequence of its calls: a string
    argument, or an integer printed with [DEC]. *)

Inductive serial_item : Type :=
  | Str (s : string)
  | Dec (n : Z).

Definition nl : string := String (ascii_of_nat 10) EmptyString.

(** ** Global variables

    [timeblock_counter] is the name of the per-pulse counter in the
    [.pde] sketch; the [.ino] sketch calls the same variable
    [current_pulse_block_counter]. *)

Record machine : Type := Machine {
  ir_pulses : list Z;
  current_ir_pulse_index : Z;
  number_of_pulses : Z;
  state : Z;
  timeblock_counter : Z;
  serial : list serial_item
}.

Definition current_pulse_block_counter : machine -> Z := timeblock_counter.

Definition set_ir_pulses (v : list Z) (m : machine) : machine :=
  Machine v (current_ir_pulse_index m) (number_of_pulses m) (state m)
          (timeblock_counter m) (serial m).
Definition set_current_ir_pulse_index (v : Z) (m : machine) : machine :=
  Machine (ir_pulses m) v (number_of_pulses m) (state m)
          (timeblock_counter m) (serial m).
Definition set_number_of_pulses (v : Z) (m : machine) : machine :=
  Machine (ir_pulses m) (current_ir_pulse_index m) v (state m)
          (timeblock_counter m) (serial m).
Definition set_state (v : Z) (m : machine) : machine :=
  Machine (ir_pulses m) (current_ir_pulse_index m) (number_of_pulses m) v
          (timeblock_counter m) (serial m).
Definition set_timeblock_counter (v : Z) (m : machine) : machine :=
  Machine (ir_pulses m) (current_ir_pulse_index m) (number_of_pulses m)
          (state m) v (serial m).
Definition serial_print (out : list serial_item) (m : machine) : machine :=
  Machine (ir_pulses m) (current_ir_pulse_index m) (number_of_pulses m)
          (state m) (timeblock_counter m) (serial m ++ out).

(** The globals after [setup()]: zero-initialised statics, [state] set
    to [STATE_IDLE], nothing printed yet. *)
Definition initial_machine : machine :=
  Machine (replicate 200 0) 0 0 STATE_IDLE 0 [].

(** ** Array accesses

    C gives no meaning to an access of [ir_pulses] at an index outside
    [0, 200); such an access ends the run with [OutOfBounds]. *)

Inductive outcome (A : Type) : Type :=
  | Done (a : A)
  | OutOfBounds (index : Z).
Arguments Done {A} a.
Arguments OutOfBounds {A} index.

#[global] Instance outcome_ret : MRet outcome := fun A a => Done a.
#[global] Instance outcome_bind : MBind outcome := fun A B k o =>
  match o with
  | Done a => k a
  | OutOfBounds i => OutOfBounds i
  end.

Definition in_bounds (i : Z) : bool := (0 <=? i) && (i <? IR_PULSES_SIZE).

(** [ir_pulses[i]] read. *)
Definition pulse_at (m : machine) (i : Z) : Z := ir_pulses m !!! Z.to_nat i.

Definition load_pulse (i : Z) (m : machine) : outcome Z :=
  if in_bounds i then Done (pulse_at m i) else OutOfBounds i.

(** [ir_pulses[i] = v]. *)
Definition store_pulse (i v : Z) (m : machine) : outcome machine :=
  if in_bounds i
  then Done (set_ir_pulses (<[Z.to_nat i := v]> (ir_pulses m)) m)
  else OutOfBounds i.

(** ** Tolerance matching: [is_pulse_match]

    [uint16_t actual_time = pulse_time_blocks *= 50;] multiplies modulo
    2^16; [actual_time + 150] and [actual_time - 150] are [unsigned int]
    expressions and wrap as well. *)

Definition is_pulse_match (expected_value pulse_time_blocks : Z) : bool :=
  let pulse_time_blocks := u16 (pulse_time_blocks * PULSE_TIME_BLOCKS_IN_MICROSECONDS) in
  let actual_time := pulse_time_blocks in
  (expected_value <=? u16 (actual_time + PULSE_DECODING_MARGIN_OF_ERROR))
  && (expected_value >=? u16 (actual_time - PULSE_DECODING_MARGIN_OF_ERROR)).

(** ** The timer interrupt handler of [arduino_ir_decoder.pde]

    [pin_active] is the value of [IR_PIN_IS_ACTIVE], read at most once
    per interrupt.  The reload of the hardware counter [TCNT2] is not
    part of the state. *)

Definition ISR_pde (pin_active : bool) (m : machine) : outcome machine :=
  if negb (state m =? STATE_FINISHED) then
    let m := set_timeblock_counter (u16 (timeblock_counter m + 1)) m in
    if state m =? STATE_IDLE then
      if pin_active then
        let m := set_state STATE_MARK m in
        let m := set_timeblock_counter 1 m in
        store_pulse (current_ir_pulse_index m) (timeblock_counter m) m
      else Done m
    else if state m =? STATE_MARK then
      if pin_active then
        store_pulse (current_ir_pulse_index m) (timeblock_counter m) m
      else
        let m := set_state STATE_SPACE m in
        let m := set_timeblock_counter 1 m in
        let m := set_current_ir_pulse_index (u16 (current_ir_pulse_index m + 1)) m in
        store_pulse (current_ir_pulse_index m) (timeblock_counter m) m
    else if state m =? STATE_SPACE then
      if timeblock_counter m >=? 600 then
        let m := set_state STATE_FINISHED m in
        let m := set_timeblock_counter 0 m in
        let m := set_number_of_pulses (current_ir_pulse_index m) m in
        let m := set_current_ir_pulse_index 0 m in
        Done m
      else
        if pin_active then
          let m := set_state STATE_MARK m in
          let m := set_timeblock_counter 1 m in
          let m := set_current_ir_pulse_index (u16 (current_ir_pulse_index m + 1)) m in
          store_pulse (current_ir_pulse_index m) (timeblock_counter m) m
        else
          store_pulse (current_ir_pulse_index m) (timeblock_counter m) m
    else Done m
  else Done m.

(** ** The NEC decoder: [try_print_nec_details]

    The decoder reads [ir_pulses] at the indices 0, 1, 66 and 3 .. 65
    only, all inside the array, so its reads are written with
    [pulse_at].  [nec_data] is a [uint32_t]; the literal
    [0b10000000000000000000000000000000] is 2^31. *)

Definition NEC_MSB : Z := 2147483648.

(** The loop [for(int i = 3; i < 66; i++)], [n] iterations left.
    [None] is the [return 0] inside the loop. *)
Fixpoint nec_payload_loop (n : nat) (i : Z) (nec_data : Z) (m : machine)
  : option Z :=
  match n with
  | O => Some nec_data
  | S n' =>
    if negb (Z.rem i 2 =? 0) then
      let nec_data := Z.shiftr nec_data 1 in
      let nec_data :=
        if is_pulse_match 565 (pulse_at m i)
        then Z.lor nec_data NEC_MSB else nec_data in
      nec_payload_loop n' (i + 1) nec_data m
    else
      if negb (is_pulse_match 560 (pulse_at m i)) then None
      else nec_payload_loop n' (i + 1) nec_data m
  end.

(** The value of [nec_data] when the decoder reaches its printing loop;
    [None] when it returns 0 before. *)
Definition nec_decode (m : machine) : option Z :=
  if negb (number_of_pulses m =? 67)
     || negb (is_pulse_match 9000 (pulse_at m 0))
     || negb (is_pulse_match 4500 (pulse_at m 1))
     || negb (is_pulse_match 560 (pulse_at m 66))
  then None
  else nec_payload_loop 63 3 0 m.

(** The loop [for(int i = 0; i < 32; i++)] that prints [nec_data] in
    binary, most significant bit first. *)
Fixpoint print_nec_bits (n : nat) (nec_data : Z) : list serial_item :=
  match n with
  | O => []
  | S n' =>
    Str (if negb (Z.land nec_data NEC_MSB =? 0) then "1" else "0")
    :: print_nec_bits n' (u32 (Z.shiftl nec_data 1))
  end.

(** Returns the [int] result and the machine after printing. *)
Definition try_print_nec_details (m : machine) : Z * machine :=
  match nec_decode m with
  | None => (0, m)
  | Some nec_data =>
    (1, serial_print ([Str "NEC Data : "] ++ print_nec_bits 32 nec_data
                      ++ [Str nl]) m)
  end.

(** ** [print_out_pulse_details] *)

(** The loop [for(int i = 0; i < number_of_pulses; i++)], [n]
    iterations left; [ir_pulses[i] * 50] is an [unsigned int]. *)
Fixpoint print_pulses (n : nat) (i : Z) (m : machine) : outcome machine :=
  match n with
  | O => Done m
  | S n' =>
    p ← load_pulse i m;
    print_pulses n' (i + 1)
      (serial_print [Dec (u16 (p * PULSE_TIME_BLOCKS_IN_MICROSECONDS)); Str ","] m)
  end.

Definition print_out_pulse_details (m : machine) : outcome machine :=
  let m := serial_print [Str (nl ++ "Number of pulses = ")] m in
  let m := serial_print [Dec (number_of_pulses m)] m in
  let m := serial_print [Str (nl ++ "[")] m in
  m ← print_pulses (Z.to_nat (number_of_pulses m)) 0 m;
  let m := serial_print [Str ("]" ++ nl)] m in
  let '(r, m) := try_print_nec_details m in
  if r =? 0 then Done (serial_print [Str ("Unknown format." ++ nl)] m)
  else Done m.

(** ** [loop]: the consumer

    [cli()] and [sei()] bracket the body, so no interrupt is served
    inside it: one call of [loop] is one step. *)

Definition loop (m : machine) : outcome machine :=
  if state m =? STATE_FINISHED then
    m ← print_out_pulse_details m;
    Done (set_state STATE_IDLE m)
  else Done m.

(** ** The timer interrupt handler of [arduino_ir_decoder.ino]

    [ISR_ino_body] is the [if]/[else if] chain that follows the guard
    [if(state != STATE_FINISHED){ return; }]. *)

Definition ISR_ino_body (pin_active : bool) (m : machine) : outcome machine :=
  if state m =? STATE_IDLE then
    if pin_active then
      let m := set_state STATE_MARK m in
      let m := set_timeblock_counter 1 m in
      store_pulse (current_ir_pulse_index m) (current_pulse_block_counter m) m
    else Done m
  else if state m =? STATE_MARK then
    if pin_active then
      let m := set_timeblock_counter (u16 (current_pulse_block_counter m + 1)) m in
      store_pulse (current_ir_pulse_index m) (current_pulse_block_counter m) m
    else
      let m := set_state STATE_SPACE m in
      let m := set_timeblock_counter 1 m in
      let m := set_current_ir_pulse_index (u16 (current_ir_pulse_index m + 1)) m in
      store_pulse (current_ir_pulse_index m) (current_pulse_block_counter m) m
  else if state m =? STATE_SPACE then
    if current_pulse_block_counter m >=? 600 then
      let m := set_state STATE_FINISHED m in
      m ← print_out_pulse_details m;
      let m := set_state STATE_IDLE m in
      let m := set_timeblock_counter 0 m in
      let m := set_number_of_pulses (current_ir_pulse_index m) m in
      let m := set_current_ir_pulse_index 0 m in
      Done m
    else
      if pin_active then
        let m := set_state STATE_MARK m in
        let m := set_timeblock_counter 1 m in
        let m := set_current_ir_pulse_index (u16 (current_ir_pulse_index m + 1)) m in
        store_pulse (current_ir_pulse_index m) (current_pulse_block_counter m) m
      else
        let m := set_timeblock_counter (u16 (current_pulse_block_counter m + 1)) m in
        store_pulse (current_ir_pulse_index m) (current_pulse_block_counter m) m
  else Done m.

Definition ISR_ino (pin_active : bool) (m : machine) : outcome machine :=
  if negb (state m =? STATE_FINISHED) then Done m
  else ISR_ino_body pin_active m.

(** ** Runs: timer interrupts interleaved with calls of [loop] *)

Inductive event : Type :=
  | Tick (pin_active : bool)
  | Loop.

Definition step (isr : bool -> machine -> outcome machine) (e : event)
  (m : machine) : outcome machine :=
  match e with
  | Tick pin_active => isr pin_active m
  | Loop => loop m
  end.

Fixpoint run (isr : bool -> machine -> outcome machine) (evs : list event)
  (m : machine) : outcome machine :=
  match evs with
  | [] => Done m
  | e :: evs' => m' ← step isr e m; run isr evs' m'
  end.

(** The four shared variables of the capture engine. *)
Definition shared (m : machine) : Z * list Z * Z * Z :=
  (state m, ir_pulses m, current_ir_pulse_index m, number_of_pulses m).

(** ** Test inputs *)

(** A finished capture holding [pulses]: what the globals are when the
    consumer sees [STATE_FINISHED] after [pulses] were recorded. *)
Definition frame_machine (pulses : list Z) : machine :=
  Machine (pulses ++ replicate (200 - length pulses) 0) 0
          (Z.of_nat (length pulses)) STATE_FINISHED 0 [].

(** Pulse [i], in 50 us blocks, of the NEC frame that carries the word
    [v]: leader 9000 us / 4500 us, marks of 550 us, a space of 550 us
    for a set bit and of 1700 us for a clear bit (the multiples of 50 us
    next to 565 us and 1690 us), bit [k] at index [3 + 2 * k]. *)
Definition nec_pulse (v : Z) (i : Z) : Z :=
  if i =? 0 then 180
  else if i =? 1 then 90
  else if Z.even i then 11
  else if Z.testbit v ((i - 3) / 2) then 11 else 34.

Definition nec_frame (v : Z) : list Z :=
  (fun n => nec_pulse v (Z.of_nat n)) <$> seq 0 67.

(** 201 samples that change level every 50 us. *)
Definition overflow_samples : list event :=
  Tick true :: concat (replicate 100 [Tick false; Tick true]).

(** ** Vocabulary of the statements *)

(** Bit [k] of the payload as the decoder reads it: does the space at
    index [3 + 2 * k] match 565 us? *)
Definition payload_bit (m : machine) (k : Z) : bool :=
  is_pulse_match 565 (pulse_at m (3 + 2 * k)).

(** What the odd iterations of the payload loop do to [nec_data], for
    the [n] bits from bit [k] on. *)
Fixpoint shift_in (f : Z -> bool) (n : nat) (k : Z) (nec_data : Z) : Z :=
  match n with
  | O => nec_data
  | S n' =>
    let nec_data := Z.shiftr nec_data 1 in
    shift_in f n' (k + 1) (if f k then Z.lor nec_data NEC_MSB else nec_data)
  end.

Definition is_u32 (d : Z) : Prop :=
  0 <= d /\ forall j, 32 <= j -> Z.testbit d j = false.

(** The header test of [try_print_nec_details]. *)
Definition nec_header_ok (m : machine) : Prop :=
  number_of_pulses m = 67
  /\ is_pulse_match 9000 (pulse_at m 0) = true
  /\ is_pulse_match 4500 (pulse_at m 1) = true
  /\ is_pulse_match 560 (pulse_at m 66) = true.

(** The marks the payload loop validates: indices 4, 6, ..., 64. *)
Definition nec_marks_ok (m : machine) : Prop :=
  forall j, 0 <= j < 31 -> is_pulse_match 560 (pulse_at m (4 + 2 * j)) = true.

(** Checking a property of the indices [0 .. n-1] by running it. *)
Fixpoint all_below (n : nat) (P : Z -> bool) : bool :=
  match n with
  | O => true
  | S n' => P (Z.of_nat n') && all_below n' P
  end.

(** A finished capture is an NEC frame for the word [v]: 67 pulses,
    leader and stop within tolerance, all 32 payload marks within
    tolerance of 560 us, and the space of bit [k] within tolerance of
    565 us when the bit is set and of 1690 us when it is clear. *)
Definition nec_encodes (m : machine) (v : Z) : Prop :=
  nec_header_ok m
  /\ (forall j, 0 <= j < 32 ->
        is_pulse_match 560 (pulse_at m (2 + 2 * j)) = true)
  /\ (forall k, 0 <= k < 32 ->
        is_pulse_match (if Z.testbit v k then 565 else 1690)
                       (pulse_at m (3 + 2 * k)) = true).

(** The frame for the word 0 with its first payload space (index 3)
    stretched to 100 blocks, 5000 us. *)
Definition long_space_frame : list Z := <[3%nat := 100]> (nec_frame 0).

(** The frame for 0x00FF00FF with its first payload mark (index 2)
    stretched to 100 blocks, 5000 us. *)
Definition long_mark_frame : list Z := <[2%nat := 100]> (nec_frame 0x00FF00FF).

(** C2 as the specification words it: a frame that passes the count,
    leader and stop checks and has a payload space matching neither
    1690 us nor 565 us is rejected. *)
Definition odd_pulses_validated : Prop :=
  forall m, nec_header_ok m ->
  (exists k, 0 <= k < 32
             /\ is_pulse_match 1690 (pulse_at m (3 + 2 * k)) = false
             /\ is_pulse_match 565 (pulse_at m (3 + 2 * k)) = false) ->
  nec_decode m = None.

(** What holds of the globals in every state the [.pde] engine can
    reach from [setup()]. *)
Definition capture_inv (m : machine) : Prop :=
  (state m = STATE_IDLE -> current_ir_pulse_index m = 0)
  /\ (state m = STATE_MARK -> 0 <= current_ir_pulse_index m < 200)
  /\ (state m = STATE_SPACE -> 1 <= current_ir_pulse_index m < 200)
  /\ (state m = STATE_FINISHED ->
      1 <= number_of_pulses m < 200 /\ current_ir_pulse_index m = 0).

(** The durations, in microseconds, that [print_out_pulse_details]
    prints for the [n] pulses from index [i] on. *)
Fixpoint pulses_us (m : machine) (n : nat) (i : Z) : list Z :=
  match n with
  | O => []
  | S n' =>
    u16 (pulse_at m i * PULSE_TIME_BLOCKS_IN_MICROSECONDS)
    :: pulses_us m n' (i + 1)
  end.

Definition pulse_items (ps : list Z) : list serial_item :=
  flat_map (fun p => [Dec p; Str ","]) ps.

(** The report of one frame: the pulse count, the pulse list and either
    the decoded word, most significant bit first, or the notice that
    the format is unknown. *)
Definition report (m : machine) : list serial_item :=
  [Str (nl ++ "Number of pulses = "); Dec (number_of_pulses m); Str (nl ++ "[")]
  ++ pulse_items (pulses_us m (Z.to_nat (number_of_pulses m)) 0)
  ++ [Str ("]" ++ nl)]
  ++ match nec_decode m with
     | Some nec_data =>
       [Str "NEC Data : "] ++ print_nec_bits 32 nec_data ++ [Str nl]
     | None => [Str ("Unknown format." ++ nl)]
     end.

(** *** Pulse trains on the receiver line *)

(** The state the capture engine is in while the line is at a level. *)
Definition level_state (active : bool) : Z :=
  if active then STATE_MARK else STATE_SPACE.

(** The line samples of a train of pulses: [d] ticks at one level for
    each duration [d], the levels alternating from [active] on. *)
Fixpoint pulse_samples (active : bool) (pulses : list Z) : list event :=
  match pulses with
  | [] => []
  | d :: ps =>
    replicate (Z.to_nat d) (Tick active) ++ pulse_samples (negb active) ps
  end.

(** Durations the [.pde] handler can record: a mark fits the 16-bit
    counter, a space ends before the timeout comparison can fire. *)
Fixpoint pulses_ok (active : bool) (pulses : list Z) : Prop :=
  match pulses with
  | [] => True
  | d :: ps =>
    1 <= d <= (if active then 65535 else 598) /\ pulses_ok (negb active) ps
  end.

(** [pulses] written to the buffer from index [i] on. *)
Fixpoint store_pulses (i : nat) (pulses : list Z) (buf : list Z) : list Z :=
  match pulses with
  | [] => buf
  | d :: ps => store_pulses (S i) ps (<[i := d]> buf)
  end.

Fixpoint final_level (prev : bool) (pulses : list Z) : bool :=
  match pulses with
  | [] => prev
  | _ :: ps => final_level (negb prev) ps
  end.

Fixpoint last_count (c : Z) (pulses : list Z) : Z :=
  match pulses with
  | [] => c
  | d :: ps => last_count d ps
  end.

(** The 32 binary digits of a word as the decoder prints them, bit 31
    first. *)
Definition msb_first_bits (w : Z) : list serial_item :=
  map (fun k => Str (if Z.testbit w (31 - Z.of_nat k) then "1" else "0"))
      (seq 0 32).

(** What [loop] prints for a decoded NEC frame of 67 pulses with the
    durations [pulses], in ticks, carrying the word [w]. *)
Definition nec_report (pulses : list Z) (w : Z) : list serial_item :=
  [Str (nl ++ "Number of pulses = "); Dec 67; Str (nl ++ "[")]
  ++ pulse_items (map (fun d => d * 50) pulses)
  ++ [Str ("]" ++ nl); Str "NEC Data : "] ++ msb_first_bits w ++ [Str nl].

(** Index and pulse count inside the array. *)
Definition bounded (m : machine) : Prop :=
  0 <= current_ir_pulse_index m < 200 /\ 0 <= number_of_pulses m < 200.

(** * Properties *)

Tactic Notation "proj_simpl" :=
  cbn [ir_pulses current_ir_pulse_index number_of_pulses state
       timeblock_counter serial current_pulse_block_counter
       set_ir_pulses set_current_ir_pulse_index set_number_of_pulses
       set_state set_timeblock_counter serial_print].
Tactic Notation "proj_simpl" "in" hyp(H) :=
  cbn [ir_pulses current_ir_pulse_index number_of_pulses state
       timeblock_counter serial current_pulse_block_counter
       set_ir_pulses set_current_ir_pulse_index set_number_of_pulses
       set_state set_timeblock_counter serial_print] in H.

(** ** Tolerance matching *)

Lemma u16_small (x : Z) : 0 <= x < 65536 -> u16 x = x.
Proof. intros H. unfold u16. apply Z.mod_small. exact H. Qed.

(** Away from the ends of the 16-bit range the matcher is the symmetric
    margin test on [50 * pulse_time_blocks]. *)
Lemma is_pulse_match_in_range (e t : Z) :
  0 <= e < 65536 -> 0 <= t <= 1310 ->
  3 <= t <= 1307 \/ 300 <= e <= 65235 ->
  is_pulse_match e t = true <-> Z.abs (e - 50 * t) <= 150.
Proof.
  intros He Ht Hr. unfold is_pulse_match, u16,
    PULSE_TIME_BLOCKS_IN_MICROSECONDS, PULSE_DECODING_MARGIN_OF_ERROR.
  rewrite andb_true_iff, Z.leb_le, Z.geb_le.
  rewrite (Z.mod_small (t * 50)) by lia.
  split; intros H; Z.div_mod_to_equations; lia.
Qed.

(** A pulse that matches 1690 us does not match 565 us. *)
Lemma match_1690_not_565 (t : Z) :
  is_pulse_match 1690 t = true -> is_pulse_match 565 t = false.
Proof.
  unfold is_pulse_match, u16,
    PULSE_TIME_BLOCKS_IN_MICROSECONDS, PULSE_DECODING_MARGIN_OF_ERROR.
  rewrite andb_true_iff, andb_false_iff, !Z.leb_le, Z.geb_le, Z.leb_gt, Z.geb_leb, Z.leb_gt.
  intros H. Z.div_mod_to_equations. lia.
Qed.

(** C4 (defect): a mark of 1320 blocks lasts 66000 us, yet it is
    reported to match 560 us, because [pulse_time_blocks *= 50] is
    reduced modulo 2^16 to 464; and an observed 100 us is reported not
    to match an expected 100 us, because [actual_time - 150] wraps. *)
Theorem is_pulse_match_wraps :
  is_pulse_match 560 1320 = true /\ 150 < Z.abs (560 - 1320 * 50)
  /\ is_pulse_match 100 2 = false /\ Z.abs (100 - 2 * 50) <= 150.
Proof. repeat split; vm_compute; congruence. Qed.

(** ** The NEC decoder *)

Lemma is_u32_range (d : Z) : 0 <= d < 4294967296 -> is_u32 d.
Proof.
  intros H. split; [lia|]. intros j Hj.
  rewrite <- (Z.mod_small d (2 ^ 32)) by (change (2 ^ 32) with 4294967296; lia).
  apply Z.mod_pow2_bits_high. lia.
Qed.

Lemma NEC_MSB_bits (j : Z) : Z.testbit NEC_MSB j = (31 =? j).
Proof. change NEC_MSB with (2 ^ 31). apply Z.pow2_bits_eqb. lia. Qed.

Lemma shift_step_u32 (b : bool) (d : Z) :
  is_u32 d -> is_u32 (if b then Z.lor (Z.shiftr d 1) NEC_MSB else Z.shiftr d 1).
Proof.
  intros [H0 Hhi]. split.
  - destruct b; [apply Z.lor_nonneg; split|]; try apply Z.shiftr_nonneg; try done.
  - intros j Hj. destruct b.
    + rewrite Z.lor_spec, Z.shiftr_spec, NEC_MSB_bits, Hhi by lia.
      apply orb_false_intro; [done|]. apply Z.eqb_neq. lia.
    + rewrite Z.shiftr_spec, Hhi by lia. done.
Qed.

Lemma shift_step_bits (b : bool) (d j : Z) :
  is_u32 d -> 0 <= j ->
  Z.testbit (if b then Z.lor (Z.shiftr d 1) NEC_MSB else Z.shiftr d 1) j
  = if j =? 31 then b else Z.testbit d (j + 1).
Proof.
  intros [H0 Hhi] Hj. destruct (Z.eqb_spec j 31) as [->|Hne].
  - destruct b.
    + rewrite Z.lor_spec, NEC_MSB_bits. apply orb_true_r.
    + rewrite Z.shiftr_spec by lia. apply Hhi. lia.
  - destruct b.
    + rewrite Z.lor_spec, Z.shiftr_spec, NEC_MSB_bits by lia.
      replace (31 =? j) with false by (symmetry; apply Z.eqb_neq; lia).
      apply orb_false_r.
    + apply Z.shiftr_spec. lia.
Qed.

(** Shifting in [n] bits moves the old contents down by [n] places and
    puts the new bits, first one lowest, in the top [n] places. *)
Lemma shift_in_bits (f : Z -> bool) (n : nat) :
  forall k d j, is_u32 d -> 0 <= j -> Z.of_nat n <= 32 ->
  Z.testbit (shift_in f n k d) j
  = if j <? 32 - Z.of_nat n then Z.testbit d (j + Z.of_nat n)
    else if j <? 32 then f (k + (j - (32 - Z.of_nat n)))
    else false.
Proof.
  induction n as [|n IH]; intros k d j Hd Hj Hn.
  - cbn [shift_in]. rewrite Z.add_0_r.
    change (Z.of_nat 0) with 0. destruct (Z.ltb_spec j (32 - 0)) as [_|Hge]; [done|].
    replace (j <? 32) with false by (symmetry; apply Z.ltb_ge; lia).
    apply Hd. lia.
  - cbn [shift_in]. rewrite IH by (auto using shift_step_u32 || lia).
    rewrite shift_step_bits by (done || lia).
    destruct (Z.ltb_spec j (32 - Z.of_nat (S n))) as [Hlt|Hge].
    + replace (j <? 32 - Z.of_nat n) with true by (symmetry; apply Z.ltb_lt; lia).
      replace (j + Z.of_nat n =? 31) with false by (symmetry; apply Z.eqb_neq; lia).
      f_equal. lia.
    + destruct (Z.ltb_spec j (32 - Z.of_nat n)) as [Hlt'|Hge'].
      * replace (j + Z.of_nat n =? 31) with true by (symmetry; apply Z.eqb_eq; lia).
        replace (j <? 32) with true by (symmetry; apply Z.ltb_lt; lia).
        f_equal. lia.
      * destruct (j <? 32); [f_equal; lia | done].
Qed.

Lemma shift_in_u32 (f : Z -> bool) (n : nat) :
  forall k d, is_u32 d -> is_u32 (shift_in f n k d).
Proof.
  induction n as [|n IH]; intros k d Hd; cbn [shift_in]; [done|].
  apply IH, shift_step_u32, Hd.
Qed.

Lemma is_u32_lt (d : Z) : is_u32 d -> 0 <= d < 4294967296.
Proof.
  intros [H0 Hhi]. split; [done|].
  destruct (Z.lt_ge_cases d (2 ^ 32)) as [Hlt|Hge]; [exact Hlt|].
  assert (Hpos : 0 < d) by lia.
  pose proof (Z.bit_log2 d Hpos) as Hbit.
  rewrite Hhi in Hbit; [discriminate|].
  apply Z.log2_le_pow2; lia.
Qed.

Lemma nec_payload_loop_S (n : nat) (i d : Z) (m : machine) :
  nec_payload_loop (S n) i d m
  = if negb (Z.rem i 2 =? 0) then
      nec_payload_loop n (i + 1)
        (if is_pulse_match 565 (pulse_at m i)
         then Z.lor (Z.shiftr d 1) NEC_MSB else Z.shiftr d 1) m
    else if negb (is_pulse_match 560 (pulse_at m i)) then None
    else nec_payload_loop n (i + 1) d m.
Proof. reflexivity. Qed.

(** The payload loop, started on an odd index: it fails only on a mark
    that does not match 560 us, and the first mark it looks at is the
    one after the space it starts on. *)
Lemma nec_payload_loop_spec (m : machine) (n : nat) :
  forall k d, 0 <= k ->
  (forall j, k <= j < k + Z.of_nat n ->
             is_pulse_match 560 (pulse_at m (4 + 2 * j)) = true) ->
  nec_payload_loop (S (2 * n)) (3 + 2 * k) d m
  = Some (shift_in (payload_bit m) (S n) k d).
Proof.
  induction n as [|n IH]; intros k d Hk Hmarks.
  - cbn [Nat.mul nec_payload_loop shift_in].
    replace (Z.rem (3 + 2 * k) 2 =? 0) with false
      by (symmetry; apply Z.eqb_neq; rewrite Z.rem_mod_nonneg by lia;
          Z.div_mod_to_equations; lia).
    reflexivity.
  - replace (S (2 * S n))%nat with (S (S (S (2 * n))))%nat by lia.
    rewrite nec_payload_loop_S.
    replace (Z.rem (3 + 2 * k) 2 =? 0) with false
      by (symmetry; apply Z.eqb_neq; rewrite Z.rem_mod_nonneg by lia;
          Z.div_mod_to_equations; lia).
    cbn [negb]. rewrite nec_payload_loop_S.
    replace (Z.rem (3 + 2 * k + 1) 2 =? 0) with true
      by (symmetry; apply Z.eqb_eq; rewrite Z.rem_mod_nonneg by lia;
          Z.div_mod_to_equations; lia).
    cbn [negb].
    replace (3 + 2 * k + 1) with (4 + 2 * k) by lia.
    rewrite Hmarks by lia. cbn [negb].
    replace (4 + 2 * k + 1) with (3 + 2 * (k + 1)) by lia.
    rewrite IH by (lia || (intros j Hj; apply Hmarks; lia)).
    reflexivity.
Qed.

Lemma nec_decode_accepts (m : machine) :
  nec_header_ok m -> nec_marks_ok m ->
  nec_decode m = Some (shift_in (payload_bit m) 32 0 0).
Proof.
  intros (Hn & Hlm & Hls & Hstop) Hmarks. unfold nec_decode.
  rewrite Hn, Hlm, Hls, Hstop. cbn [Z.eqb Pos.eqb negb orb].
  apply (nec_payload_loop_spec m 31 0 0); [lia|].
  intros j Hj. apply Hmarks. lia.
Qed.

Lemma decoded_bits (m : machine) (k : Z) :
  0 <= k < 32 ->
  Z.testbit (shift_in (payload_bit m) 32 0 0) k = payload_bit m k.
Proof.
  intros Hk. rewrite shift_in_bits by (lia || (apply is_u32_range; lia)).
  replace (k <? 32 - Z.of_nat 32) with false by (symmetry; apply Z.ltb_ge; lia).
  replace (k <? 32) with true by (symmetry; apply Z.ltb_lt; lia).
  f_equal. lia.
Qed.

(** A decoder that only has to get a word whose bits are known. *)
Lemma nec_decode_word (m : machine) (v : Z) :
  0 <= v < 4294967296 ->
  nec_header_ok m -> nec_marks_ok m ->
  (forall k, 0 <= k < 32 -> payload_bit m k = Z.testbit v k) ->
  nec_decode m = Some v.
Proof.
  intros Hv Hh Hmarks Hbits. rewrite nec_decode_accepts by done.
  f_equal. apply Z.bits_inj'. intros j Hj.
  destruct (Z.lt_ge_cases j 32) as [Hlt|Hge].
  - rewrite decoded_bits by lia. apply Hbits. lia.
  - pose proof (shift_in_u32 (payload_bit m) 32 0 0) as [_ Hhi];
      [apply is_u32_range; lia|].
    rewrite Hhi by lia. symmetry.
    apply (is_u32_range v Hv). lia.
Qed.

Lemma all_below_spec (n : nat) (P : Z -> bool) :
  all_below n P = true -> forall j, 0 <= j < Z.of_nat n -> P j = true.
Proof.
  induction n as [|n IH]; intros H j Hj; [lia|].
  cbn [all_below] in H. apply andb_true_iff in H as [Hn Hrest].
  destruct (Z.eq_dec j (Z.of_nat n)) as [->|Hne]; [done|].
  apply IH; [done | lia].
Qed.

(** Reading the synthetic frame. *)
Lemma pulse_at_nec_frame (v i : Z) :
  0 <= i < 67 -> pulse_at (frame_machine (nec_frame v)) i = nec_pulse v i.
Proof.
  intros Hi. unfold pulse_at, frame_machine, nec_frame. cbn [ir_pulses].
  rewrite lookup_total_app_l by (rewrite length_fmap, length_seq; lia).
  rewrite (list_lookup_total_fmap (A:=nat) (B:=Z) _ (seq 0 67))
    by (rewrite length_seq; lia).
  rewrite lookup_total_seq_lt by lia.
  f_equal. lia.
Qed.

Lemma nec_frame_header (v : Z) : nec_header_ok (frame_machine (nec_frame v)).
Proof.
  unfold nec_header_ok. rewrite !pulse_at_nec_frame by lia.
  repeat split.
Qed.

Lemma nec_frame_encodes (v : Z) : nec_encodes (frame_machine (nec_frame v)) v.
Proof.
  split; [apply nec_frame_header|]. split.
  - intros j Hj. rewrite pulse_at_nec_frame by lia. unfold nec_pulse.
    replace (2 + 2 * j =? 0) with false by (symmetry; apply Z.eqb_neq; lia).
    replace (2 + 2 * j =? 1) with false by (symmetry; apply Z.eqb_neq; lia).
    replace (2 + 2 * j) with (2 * (1 + j)) by lia.
    rewrite Z.even_mul. reflexivity.
  - intros k Hk. rewrite pulse_at_nec_frame by lia. unfold nec_pulse.
    replace (3 + 2 * k =? 0) with false by (symmetry; apply Z.eqb_neq; lia).
    replace (3 + 2 * k =? 1) with false by (symmetry; apply Z.eqb_neq; lia).
    replace (3 + 2 * k) with (1 + 2 * (1 + k)) at 1 by lia.
    rewrite Z.even_add_mul_2.
    replace ((3 + 2 * k - 3) / 2) with k by (Z.div_mod_to_equations; lia).
    destruct (Z.testbit v k); reflexivity.
Qed.

Lemma nec_encodes_decode (m : machine) (v : Z) :
  0 <= v < 4294967296 -> nec_encodes m v -> nec_decode m = Some v.
Proof.
  intros Hv (Hh & Hmarks & Hspaces). apply nec_decode_word; [done | done | |].
  - intros j Hj. replace (4 + 2 * j) with (2 + 2 * (j + 1)) by lia.
    apply Hmarks. lia.
  - intros k Hk. specialize (Hspaces k Hk). unfold payload_bit.
    destruct (Z.testbit v k); [exact Hspaces|].
    apply match_1690_not_565, Hspaces.
Qed.

(** C5: for every 32-bit value [v], decoding a 67-pulse NEC-shaped
    frame that encodes [v] (valid leader, marks and stop; the space at
    index [3 + 2 * k] within tolerance of 565 us when bit [k] of [v] is
    set and of 1690 us when it is clear) yields exactly [v]: the first
    payload space, index 3, is bit 0 and the last one, index 65, is
    bit 31.  [nec_frame v] is such a frame. *)
Theorem nec_round_trip (v : Z) :
  0 <= v < 4294967296 ->
  nec_encodes (frame_machine (nec_frame v)) v
  /\ nec_decode (frame_machine (nec_frame v)) = Some v
  /\ forall m, nec_encodes m v -> nec_decode m = Some v.
Proof.
  intros Hv. split; [apply nec_frame_encodes|]. split.
  - apply nec_encodes_decode; [exact Hv | apply nec_frame_encodes].
  - intros m. apply nec_encodes_decode, Hv.
Qed.

Lemma nec_round_trip_witness :
  0 <= 0x00FF00FF < 4294967296
  /\ nec_decode (frame_machine (nec_frame 0x00FF00FF)) = Some 0x00FF00FF.
Proof.
  split; [lia|].
  exact (proj1 (proj2 (nec_round_trip 0x00FF00FF ltac:(lia)))).
Defined.

Lemma nec_marks_ok_check (m : machine) :
  all_below 31 (fun j => is_pulse_match 560 (pulse_at m (4 + 2 * j))) = true ->
  nec_marks_ok m.
Proof. intros H j Hj. apply (all_below_spec 31 _ H). lia. Qed.

(** C2 (defect): the decoder never compares a payload space with
    1690 us.  The frame for the word 0 whose first payload space, at
    index 3, lasts 5000 us has 67 pulses, a valid leader and stop and
    all 32 payload marks within tolerance of 560 us; its space at index
    3 matches neither 1690 us nor 565 us; yet [try_print_nec_details]
    returns 1 and the decoded word is 0.  So the claim as worded does
    not hold of the code. *)
Theorem payload_space_unchecked :
  nec_header_ok (frame_machine long_space_frame)
  /\ (forall j, 0 <= j < 32 ->
        is_pulse_match 560 (pulse_at (frame_machine long_space_frame) (2 + 2 * j))
        = true)
  /\ is_pulse_match 1690 (pulse_at (frame_machine long_space_frame) 3) = false
  /\ is_pulse_match 565 (pulse_at (frame_machine long_space_frame) 3) = false
  /\ nec_decode (frame_machine long_space_frame) = Some 0
  /\ fst (try_print_nec_details (frame_machine long_space_frame)) = 1
  /\ ~ odd_pulses_validated.
Proof.
  assert (Hh : nec_header_ok (frame_machine long_space_frame))
    by (unfold nec_header_ok; split; [|split; [|split]]; reflexivity).
  assert (Hdec : nec_decode (frame_machine long_space_frame) = Some 0)
    by (vm_compute; reflexivity).
  split; [exact Hh|]. split.
  { apply (all_below_spec 32
             (fun j => is_pulse_match 560
                         (pulse_at (frame_machine long_space_frame) (2 + 2 * j)))).
    vm_compute. reflexivity. }
  split; [vm_compute; reflexivity|]. split; [vm_compute; reflexivity|].
  split; [exact Hdec|]. split.
  { unfold try_print_nec_details. rewrite Hdec. reflexivity. }
  intros H.
  assert (Hnone : nec_decode (frame_machine long_space_frame) = None).
  { apply H; [exact Hh|].
    exists 0. split; [lia|]. split; vm_compute; reflexivity. }
  rewrite Hdec in Hnone. discriminate.
Qed.

(** C3 (defect): the payload loop starts at index 3, so the mark at
    index 2 is never compared with 560 us.  The frame whose mark at
    index 2 lasts 5000 us is accepted and decoded. *)
Theorem first_payload_mark_unchecked :
  number_of_pulses (frame_machine long_mark_frame) = 67
  /\ is_pulse_match 560 (pulse_at (frame_machine long_mark_frame) 2) = false
  /\ nec_decode (frame_machine long_mark_frame) = Some 0x00FF00FF.
Proof. repeat split. Qed.

(** What the loop does check: a mark at one of the indices 4 .. 64 that
    does not match 560 us rejects the frame. *)
Lemma nec_payload_loop_bad_mark (m : machine) (n : nat) :
  forall k d j, 0 <= k -> k <= j < k + Z.of_nat n ->
  is_pulse_match 560 (pulse_at m (4 + 2 * j)) = false ->
  nec_payload_loop (S (2 * n)) (3 + 2 * k) d m = None.
Proof.
  induction n as [|n IH]; intros k d j Hk Hj Hbad; [lia|].
  replace (S (2 * S n))%nat with (S (S (S (2 * n))))%nat by lia.
  rewrite nec_payload_loop_S.
  replace (Z.rem (3 + 2 * k) 2 =? 0) with false
    by (symmetry; apply Z.eqb_neq; rewrite Z.rem_mod_nonneg by lia;
        Z.div_mod_to_equations; lia).
  cbn [negb]. rewrite nec_payload_loop_S.
  replace (Z.rem (3 + 2 * k + 1) 2 =? 0) with true
    by (symmetry; apply Z.eqb_eq; rewrite Z.rem_mod_nonneg by lia;
        Z.div_mod_to_equations; lia).
  cbn [negb].
  replace (3 + 2 * k + 1) with (4 + 2 * k) by lia.
  destruct (is_pulse_match 560 (pulse_at m (4 + 2 * k))) eqn:Hk0; [|done].
  cbn [negb].
  replace (4 + 2 * k + 1) with (3 + 2 * (k + 1)) by lia.
  apply (IH _ _ j); [lia | | done].
  assert (j <> k) by (intros ->; congruence). lia.
Qed.

Lemma nec_decode_bad_mark (m : machine) (j : Z) :
  0 <= j < 31 ->
  is_pulse_match 560 (pulse_at m (4 + 2 * j)) = false ->
  nec_decode m = None.
Proof.
  intros Hj Hbad. unfold nec_decode.
  destruct (_ || _); [done|].
  apply (nec_payload_loop_bad_mark m 31 0 0 j); [lia | lia | done].
Qed.

(** ** The capture engine *)

(** C1 (defect): neither handler compares the index with the size of
    the array.  In the [.pde] sketch, 201 samples that alternate
    between active and inactive bring [current_ir_pulse_index] to 200
    and the handler stores to [ir_pulses[200]], one past the end;
    the frame is not aborted. *)
Theorem capture_overflow_writes_out_of_bounds :
  in_bounds 200 = false
  /\ run ISR_pde overflow_samples initial_machine = OutOfBounds 200.
Proof. split; vm_compute; reflexivity. Qed.

(** One sample earlier the capture is still inside the array. *)
Lemma capture_before_overflow :
  exists m, run ISR_pde (take 200 overflow_samples) initial_machine = Done m
            /\ state m = STATE_SPACE /\ current_ir_pulse_index m = 199.
Proof. eexists. vm_compute. repeat split. Qed.

(** C6: in the [.pde] handler, in [STATE_SPACE] with the line inactive,
    the tick on which the per-pulse counter reaches 600 moves the
    engine to [STATE_FINISHED]: [number_of_pulses] becomes the current
    index (the trailing space is not counted), the index becomes 0 and
    the buffer is untouched.  The tick on which the counter reaches 599
    does not: the engine stays in [STATE_SPACE], records 599 for the
    running space and keeps index and pulse count. *)
Theorem timeout_boundary (m : machine) :
  state m = STATE_SPACE ->
  in_bounds (current_ir_pulse_index m) = true ->
  (timeblock_counter m + 1 = 600 ->
   ISR_pde false m
   = Done (Machine (ir_pulses m) 0 (current_ir_pulse_index m)
                   STATE_FINISHED 0 (serial m)))
  /\ (timeblock_counter m + 1 = 599 ->
      ISR_pde false m
      = Done (Machine (<[Z.to_nat (current_ir_pulse_index m) := 599]> (ir_pulses m))
                      (current_ir_pulse_index m) (number_of_pulses m)
                      STATE_SPACE 599 (serial m))).
Proof.
  intros Hs Hb. destruct m as [buf idx nop st c out].
  proj_simpl in Hs. proj_simpl in Hb. subst st.
  split; intros Hc; proj_simpl in Hc;
    [assert (c = 599) as -> by lia | assert (c = 598) as -> by lia];
    unfold ISR_pde, store_pulse; proj_simpl; rewrite ?Hb; reflexivity.
Qed.

Lemma timeout_boundary_witness :
  ISR_pde false (Machine (replicate 200 7) 5 0 STATE_SPACE 599 [])
  = Done (Machine (replicate 200 7) 0 5 STATE_FINISHED 0 [])
  /\ ISR_pde false (Machine (replicate 200 7) 5 0 STATE_SPACE 598 [])
     = Done (Machine (<[5%nat := 599]> (replicate 200 7)) 5 0 STATE_SPACE 599 []).
Proof.
  split.
  - exact (proj1 (timeout_boundary
                    (Machine (replicate 200 7) 5 0 STATE_SPACE 599 [])
                    eq_refl eq_refl) eq_refl).
  - exact (proj2 (timeout_boundary
                    (Machine (replicate 200 7) 5 0 STATE_SPACE 598 [])
                    eq_refl eq_refl) eq_refl).
Defined.

(** *** The handlers while a frame waits for the consumer *)

Lemma ISR_pde_finished (pin_active : bool) (m : machine) :
  state m = STATE_FINISHED -> ISR_pde pin_active m = Done m.
Proof. intros H. unfold ISR_pde. rewrite H. reflexivity. Qed.

(** The guard of the [.ino] handler returns for every state but
    [STATE_FINISHED], and in [STATE_FINISHED] no branch of the chain
    applies. *)
Lemma ISR_ino_noop (pin_active : bool) (m : machine) :
  ISR_ino pin_active m = Done m.
Proof.
  unfold ISR_ino. destruct (Z.eqb_spec (state m) STATE_FINISHED) as [H|H];
    cbn [negb]; [|reflexivity].
  unfold ISR_ino_body. rewrite H. reflexivity.
Qed.

Lemma run_ticks_fixed (isr : bool -> machine -> outcome machine) (m : machine) :
  (forall pin_active, isr pin_active m = Done m) ->
  forall samples, run isr (map Tick samples) m = Done m.
Proof.
  intros Hfix samples. induction samples as [|b samples IH]; [reflexivity|].
  cbn [map run step]. rewrite Hfix. exact IH.
Qed.

(** C7: while [state] is [STATE_FINISHED] a tick changes nothing, in
    either sketch: the machine after the handler is the machine before
    it, for one sample and for any sequence of samples. *)
Theorem finished_ticks_are_ignored (m : machine) :
  state m = STATE_FINISHED ->
  (forall pin_active,
     ISR_pde pin_active m = Done m /\ ISR_ino pin_active m = Done m)
  /\ (forall samples,
        run ISR_pde (map Tick samples) m = Done m
        /\ run ISR_ino (map Tick samples) m = Done m).
Proof.
  intros H. split.
  - intros b. split; [apply ISR_pde_finished, H | apply ISR_ino_noop].
  - intros samples. split; apply run_ticks_fixed; intros b;
      [apply ISR_pde_finished, H | apply ISR_ino_noop].
Qed.

Lemma finished_ticks_are_ignored_witness :
  let m := frame_machine (nec_frame 0x00FF00FF) in
  run ISR_pde (map Tick [true; false; true]) m = Done m
  /\ run ISR_ino (map Tick [true; false; true]) m = Done m.
Proof.
  intros m.
  exact (proj2 (finished_ticks_are_ignored m eq_refl) [true; false; true]).
Defined.

(** *** The two handlers compared *)

(** C9 (defect): in [STATE_IDLE] with the line active, which is not the
    timeout case, the [.pde] handler starts a mark and the [.ino]
    handler, whose guard is inverted, returns at once. *)
Theorem handlers_differ_in_idle :
  exists m_pde m_ino,
    state initial_machine = STATE_IDLE
    /\ ISR_pde true initial_machine = Done m_pde
    /\ ISR_ino true initial_machine = Done m_ino
    /\ state m_pde = STATE_MARK /\ pulse_at m_pde 0 = 1
    /\ state m_ino = STATE_IDLE /\ pulse_at m_ino 0 = 0
    /\ shared m_pde <> shared m_ino.
Proof.
  eexists _, _. split; [reflexivity|].
  split; [vm_compute; reflexivity|]. split; [vm_compute; reflexivity|].
  repeat split. discriminate.
Qed.

(** Behind its guard the [.ino] handler is the [.pde] state machine:
    whenever neither of them takes its timeout branch, the chain of
    the [.ino] handler and the [.pde] handler give the same state,
    buffer, index and pulse count. *)
Lemma ISR_ino_body_agrees (pin_active : bool) (m : machine) :
  state m <> STATE_FINISHED ->
  0 <= timeblock_counter m < 65536 ->
  ~ (state m = STATE_SPACE /\ 599 <= timeblock_counter m) ->
  match ISR_ino_body pin_active m, ISR_pde pin_active m with
  | Done m1, Done m2 => shared m1 = shared m2
  | OutOfBounds i, OutOfBounds j => i = j
  | _, _ => False
  end.
Proof.
  intros Hnf Hc Hnt. destruct m as [buf idx nop st c out].
  proj_simpl in Hnf. proj_simpl in Hc. proj_simpl in Hnt.
  unfold ISR_ino_body, ISR_pde, store_pulse. proj_simpl.
  replace (st =? STATE_FINISHED) with false by (symmetry; apply Z.eqb_neq; done).
  cbn [negb].
  destruct (Z.eqb_spec st STATE_IDLE) as [->|Hni].
  { destruct pin_active; [destruct (in_bounds idx)|]; reflexivity. }
  destruct (Z.eqb_spec st STATE_MARK) as [->|Hnm].
  { destruct pin_active; proj_simpl.
    - destruct (in_bounds idx); reflexivity.
    - destruct (in_bounds (u16 (idx + 1))); reflexivity. }
  destruct (Z.eqb_spec st STATE_SPACE) as [->|Hns]; [|reflexivity].
  assert (Hlt : c < 599) by lia.
  rewrite (u16_small (c + 1)) by lia.
  replace (c >=? 600) with false by (symmetry; rewrite Z.geb_leb; apply Z.leb_gt; lia).
  replace (c + 1 >=? 600) with false by (symmetry; rewrite Z.geb_leb; apply Z.leb_gt; lia).
  destruct pin_active; proj_simpl.
  - destruct (in_bounds (u16 (idx + 1))); reflexivity.
  - destruct (in_bounds idx); reflexivity.
Qed.

Lemma run_ino_initial (evs : list event) :
  run ISR_ino evs initial_machine = Done initial_machine.
Proof.
  induction evs as [|[b|] evs IH]; [reflexivity| |].
  - cbn [run step]. rewrite ISR_ino_noop. exact IH.
  - exact IH.
Qed.

(** C10: the [.ino] handler leaves every global as it found it, for
    every value of [state] and every line sample: its guard returns
    for every state other than [STATE_FINISHED], and in
    [STATE_FINISHED] no branch of the chain applies.  From the state
    left by [setup()], no sequence of ticks and calls of [loop] changes
    anything, so the engine stays in [STATE_IDLE]. *)
Theorem ino_handler_does_nothing :
  (forall pin_active m,
     ISR_ino pin_active m = Done m
     /\ (state m <> STATE_FINISHED -> negb (state m =? STATE_FINISHED) = true)
     /\ (state m = STATE_FINISHED -> ISR_ino_body pin_active m = Done m))
  /\ (forall evs, run ISR_ino evs initial_machine = Done initial_machine)
  /\ state initial_machine = STATE_IDLE.
Proof.
  split; [|split; [apply run_ino_initial | reflexivity]].
  intros b m. split; [apply ISR_ino_noop|]. split.
  - intros H. apply negb_true_iff, Z.eqb_neq, H.
  - intros H. unfold ISR_ino_body. rewrite H. reflexivity.
Qed.

(** *** Reachable states and the report *)

Lemma in_bounds_true (i : Z) : in_bounds i = true <-> 0 <= i < 200.
Proof.
  unfold in_bounds, IR_PULSES_SIZE.
  rewrite andb_true_iff, Z.leb_le, Z.ltb_lt. reflexivity.
Qed.

Lemma store_pulse_done (i v : Z) (m m' : machine) :
  store_pulse i v m = Done m' ->
  0 <= i < 200 /\ m' = set_ir_pulses (<[Z.to_nat i := v]> (ir_pulses m)) m.
Proof.
  unfold store_pulse. destruct (in_bounds i) eqn:Hb; [|discriminate].
  intros [= <-]. split; [apply in_bounds_true, Hb | reflexivity].
Qed.

Lemma capture_inv_initial : capture_inv initial_machine.
Proof. repeat split; discriminate || reflexivity. Qed.

Ltac state_cases st :=
  destruct (Z.eqb_spec st STATE_IDLE) as [->|?];
  [|destruct (Z.eqb_spec st STATE_MARK) as [->|?];
    [|destruct (Z.eqb_spec st STATE_SPACE) as [->|?]]].

Ltac inv_done H :=
  first [ apply store_pulse_done in H as [? ->] | injection H as <- ];
  proj_simpl.

Lemma ISR_pde_inv (pin_active : bool) (m m' : machine) :
  capture_inv m -> ISR_pde pin_active m = Done m' -> capture_inv m'.
Proof.
  intros (Hi & Hm & Hs & Hf) H. destruct m as [buf idx nop st c out].
  proj_simpl in Hi. proj_simpl in Hm. proj_simpl in Hs. proj_simpl in Hf.
  unfold ISR_pde in H. proj_simpl in H.
  destruct (Z.eqb_spec st STATE_FINISHED) as [->|Hnf]; cbn [negb] in H.
  { injection H as <-. repeat split; proj_simpl; try discriminate; tauto. }
  state_cases st.
  - destruct pin_active; inv_done H; unfold capture_inv; proj_simpl;
      repeat split; try discriminate; try tauto.
    all: rewrite Hi by reflexivity; lia.
  - change (STATE_MARK =? STATE_IDLE) with false in H. cbn iota in H.
    destruct pin_active; inv_done H; unfold capture_inv; proj_simpl;
      repeat split; try discriminate; try tauto.
    all: specialize (Hm eq_refl); unfold u16 in *;
      Z.div_mod_to_equations; lia.
  - change (STATE_SPACE =? STATE_IDLE) with false in H.
    change (STATE_SPACE =? STATE_MARK) with false in H. cbn iota in H.
    specialize (Hs eq_refl).
    destruct (u16 (c + 1) >=? 600); [|destruct pin_active]; inv_done H;
      unfold capture_inv; proj_simpl;
      repeat split; try discriminate; try tauto; lia.
  - injection H as <-. unfold capture_inv. proj_simpl.
    repeat split; intros; congruence.
Qed.

Lemma serial_print_app (a b : list serial_item) (m : machine) :
  serial_print b (serial_print a m) = serial_print (a ++ b) m.
Proof. unfold serial_print. proj_simpl. rewrite app_assoc. reflexivity. Qed.

Lemma pulses_us_serial (out : list serial_item) (m : machine) (n : nat) :
  forall i, pulses_us (serial_print out m) n i = pulses_us m n i.
Proof. induction n as [|n IH]; intros i; cbn [pulses_us]; [|rewrite IH]; reflexivity. Qed.

Lemma print_pulses_spec (n : nat) :
  forall i m, 0 <= i -> i + Z.of_nat n <= 200 ->
  print_pulses n i m = Done (serial_print (pulse_items (pulses_us m n i)) m).
Proof.
  induction n as [|n IH]; intros i m Hi Hn.
  - cbn [print_pulses pulses_us pulse_items flat_map].
    unfold serial_print. rewrite app_nil_r. destruct m; reflexivity.
  - cbn [print_pulses]. unfold load_pulse.
    replace (in_bounds i) with true by (symmetry; apply in_bounds_true; lia).
    cbn [mbind outcome_bind]. rewrite IH by lia.
    rewrite serial_print_app, pulses_us_serial. reflexivity.
Qed.

Lemma nec_payload_loop_serial (out : list serial_item) (m : machine) (n : nat) :
  forall i d,
  nec_payload_loop n i d (serial_print out m) = nec_payload_loop n i d m.
Proof.
  induction n as [|n IH]; intros i d; [reflexivity|].
  rewrite !nec_payload_loop_S, !IH. reflexivity.
Qed.

Lemma nec_decode_serial (out : list serial_item) (m : machine) :
  nec_decode (serial_print out m) = nec_decode m.
Proof. unfold nec_decode. rewrite nec_payload_loop_serial. reflexivity. Qed.

Lemma print_out_pulse_details_spec (m : machine) :
  0 <= number_of_pulses m <= 200 ->
  print_out_pulse_details m = Done (serial_print (report m) m).
Proof.
  intros Hn. unfold print_out_pulse_details.
  rewrite print_pulses_spec by (proj_simpl; lia).
  cbn [mbind outcome_bind]. unfold try_print_nec_details, report.
  rewrite !serial_print_app, !pulses_us_serial. proj_simpl.
  rewrite !nec_decode_serial.
  destruct (nec_decode m) as [w|]; cbn [Z.eqb];
    rewrite ?serial_print_app, <- ?app_assoc; reflexivity.
Qed.

Lemma loop_inv (m m' : machine) :
  capture_inv m -> loop m = Done m' -> capture_inv m'.
Proof.
  intros Hinv H. unfold loop in H.
  destruct (Z.eqb_spec (state m) STATE_FINISHED) as [Hf|Hnf];
    [|injection H as <-; exact Hinv].
  destruct Hinv as (_ & _ & _ & Hfin). destruct (Hfin Hf) as [Hn Hidx].
  rewrite print_out_pulse_details_spec in H by lia.
  injection H as <-. unfold capture_inv. proj_simpl.
  repeat split; try discriminate; done.
Qed.

Lemma run_pde_inv (evs : list event) :
  forall m m', capture_inv m -> run ISR_pde evs m = Done m' -> capture_inv m'.
Proof.
  induction evs as [|e evs IH]; intros m m' Hinv H.
  - injection H as <-. exact Hinv.
  - cbn [run] in H. destruct (step ISR_pde e m) as [m1|] eqn:Hstep;
      [|discriminate].
    cbn [mbind outcome_bind] in H. apply (IH m1 m'); [|exact H].
    destruct e as [b|]; cbn [step] in Hstep;
      [eapply ISR_pde_inv | eapply loop_inv]; eassumption.
Qed.

Lemma pulse_items_no_word (ps : list Z) : ~ In (Str "NEC Data : ") (pulse_items ps).
Proof.
  induction ps as [|p ps IH]; cbn; [tauto|].
  intros [H|[H|H]]; [discriminate | discriminate | exact (IH H)].
Qed.

Lemma report_word_only_if_decoded (m : machine) :
  In (Str "NEC Data : ") (report m) -> exists w, nec_decode m = Some w.
Proof.
  unfold report. destruct (nec_decode m) as [w|]; [eauto|].
  rewrite !in_app_iff. intros [H|[H|[H|H]]].
  - cbn in H. destruct H as [H|[H|[H|[]]]]; discriminate.
  - destruct (pulse_items_no_word _ H).
  - cbn in H. destruct H as [H|[]]. discriminate.
  - cbn in H. destruct H as [H|[]]. discriminate.
Qed.

(** C8: whenever the engine, started by [setup()] and driven by any
    sequence of ticks and calls of [loop], is in [STATE_FINISHED], the
    recorded pulse count is at least 1; the consumer then prints the
    report of the frame, whose pulse list has that many entries and so
    is not empty, and the report carries a decoded word only if the NEC
    decoder accepted the frame.  This holds for either handler (the
    [.ino] engine never gets to [STATE_FINISHED]). *)
Theorem report_pulses_nonempty
  (isr : bool -> machine -> outcome machine) (evs : list event) (m : machine) :
  isr = ISR_pde \/ isr = ISR_ino ->
  run isr evs initial_machine = Done m ->
  state m = STATE_FINISHED ->
  1 <= number_of_pulses m
  /\ length (pulses_us m (Z.to_nat (number_of_pulses m)) 0)
     = Z.to_nat (number_of_pulses m)
  /\ pulses_us m (Z.to_nat (number_of_pulses m)) 0 <> []
  /\ loop m = Done (set_state STATE_IDLE (serial_print (report m) m))
  /\ (In (Str "NEC Data : ") (report m) -> exists w, nec_decode m = Some w).
Proof.
  intros [->| ->] Hrun Hf.
  - pose proof (run_pde_inv evs _ _ capture_inv_initial Hrun) as (_ & _ & _ & Hfin).
    destruct (Hfin Hf) as [Hn _].
    assert (Hlen : forall n i, length (pulses_us m n i) = n)
      by (induction n as [|n IH]; intros i; cbn [pulses_us length];
          [|rewrite IH]; reflexivity).
    split; [lia|]. split; [apply Hlen|]. split.
    + intros Hnil. pose proof (Hlen (Z.to_nat (number_of_pulses m)) 0) as Hl.
      rewrite Hnil in Hl. cbn [length] in Hl. lia.
    + split; [|apply report_word_only_if_decoded].
      unfold loop. rewrite Hf. change (STATE_FINISHED =? STATE_FINISHED) with true.
      cbn iota. rewrite print_out_pulse_details_spec by lia. reflexivity.
  - rewrite run_ino_initial in Hrun. injection Hrun as <-. discriminate.
Qed.

Lemma report_pulses_nonempty_witness :
  exists m,
    run ISR_pde (Tick true :: replicate 600 (Tick false)) initial_machine = Done m
    /\ state m = STATE_FINISHED
    /\ 1 <= number_of_pulses m
    /\ pulses_us m (Z.to_nat (number_of_pulses m)) 0 <> []
    /\ loop m = Done (set_state STATE_IDLE (serial_print (report m) m)).
Proof.
  eexists. split; [vm_compute; reflexivity|]. split; [reflexivity|].
  pose proof (report_pulses_nonempty ISR_pde
                (Tick true :: replicate 600 (Tick false)) _
                (or_introl eq_refl) ltac:(vm_compute; reflexivity) eq_refl)
    as (H1 & _ & H2 & H3 & _).
  split; [exact H1|]. split; [exact H2 | exact H3].
Defined.

(** ** Capturing a pulse train *)

Lemma run_app (isr : bool -> machine -> outcome machine) (evs1 evs2 : list event) :
  forall m, run isr (evs1 ++ evs2) m = m' ← run isr evs1 m; run isr evs2 m'.
Proof.
  induction evs1 as [|e evs1 IH]; intros m; [reflexivity|].
  cbn [app run]. destruct (step isr e m) as [m1|i]; [apply IH | reflexivity].
Qed.

Lemma in_bounds_intro (i : Z) : 0 <= i < 200 -> in_bounds i = true.
Proof. apply in_bounds_true. Qed.

Lemma ISR_pde_idle_inactive buf i nop c out :
  ISR_pde false (Machine buf i nop STATE_IDLE c out)
  = Done (Machine buf i nop STATE_IDLE (u16 (c + 1)) out).
Proof. reflexivity. Qed.

Lemma ISR_pde_idle_active buf nop c out :
  ISR_pde true (Machine buf 0 nop STATE_IDLE c out)
  = Done (Machine (<[0%nat := 1]> buf) 0 nop STATE_MARK 1 out).
Proof. reflexivity. Qed.

(** One more tick at the level of the running pulse. *)
Lemma ISR_pde_hold (b : bool) buf i nop c out :
  0 <= i < 200 -> 0 <= c -> c + 1 <= (if b then 65535 else 599) ->
  ISR_pde b (Machine buf i nop (level_state b) c out)
  = Done (Machine (<[Z.to_nat i := c + 1]> buf) i nop (level_state b) (c + 1) out).
Proof.
  intros Hi Hc Hb. unfold ISR_pde, store_pulse. proj_simpl.
  rewrite (u16_small (c + 1)) by (destruct b; lia).
  rewrite (in_bounds_intro i Hi).
  destruct b; cbn [level_state]; [reflexivity|].
  change (STATE_SPACE =? STATE_FINISHED) with false.
  change (STATE_SPACE =? STATE_IDLE) with false.
  change (STATE_SPACE =? STATE_MARK) with false.
  change (STATE_SPACE =? STATE_SPACE) with true. cbn [negb].
  replace (c + 1 >=? 600) with false
    by (symmetry; rewrite Z.geb_leb; apply Z.leb_gt; lia).
  reflexivity.
Qed.

(** The tick on which the line changes level. *)
Lemma ISR_pde_edge (a : bool) buf i nop c out :
  0 <= i -> i + 1 < 200 -> (a = true -> 0 <= c <= 598) ->
  ISR_pde a (Machine buf i nop (level_state (negb a)) c out)
  = Done (Machine (<[Z.to_nat (i + 1) := 1]> buf) (i + 1) nop (level_state a) 1 out).
Proof.
  intros Hi Hi1 Hc. unfold ISR_pde, store_pulse. proj_simpl.
  rewrite (u16_small (i + 1)) by lia.
  rewrite (in_bounds_intro (i + 1)) by lia.
  destruct a; cbn [level_state negb]; [|reflexivity].
  change (STATE_SPACE =? STATE_FINISHED) with false.
  change (STATE_SPACE =? STATE_IDLE) with false.
  change (STATE_SPACE =? STATE_MARK) with false.
  change (STATE_SPACE =? STATE_SPACE) with true. cbn [negb].
  rewrite (u16_small (c + 1)) by (specialize (Hc eq_refl); lia).
  replace (c + 1 >=? 600) with false
    by (symmetry; rewrite Z.geb_leb; apply Z.leb_gt; specialize (Hc eq_refl); lia).
  reflexivity.
Qed.

(** The timeout comparison comes before the line is looked at. *)
Lemma ISR_pde_timeout (pin_active : bool) buf i nop c out :
  599 <= c < 65535 ->
  ISR_pde pin_active (Machine buf i nop STATE_SPACE c out)
  = Done (Machine buf 0 i STATE_FINISHED 0 out).
Proof.
  intros Hc. unfold ISR_pde. proj_simpl.
  change (STATE_SPACE =? STATE_FINISHED) with false.
  change (STATE_SPACE =? STATE_IDLE) with false.
  change (STATE_SPACE =? STATE_MARK) with false.
  change (STATE_SPACE =? STATE_SPACE) with true. cbn [negb].
  rewrite (u16_small (c + 1)) by lia.
  replace (c + 1 >=? 600) with true
    by (symmetry; rewrite Z.geb_leb; apply Z.leb_le; lia).
  reflexivity.
Qed.

Lemma run_hold (b : bool) (i : nat) nop out (k : nat) :
  forall c buf, (i < 200)%nat -> 0 <= c ->
  c + Z.of_nat k <= (if b then 65535 else 599) ->
  run ISR_pde (replicate k (Tick b))
      (Machine (<[i := c]> buf) (Z.of_nat i) nop (level_state b) c out)
  = Done (Machine (<[i := c + Z.of_nat k]> buf) (Z.of_nat i) nop
                  (level_state b) (c + Z.of_nat k) out).
Proof.
  induction k as [|k IH]; intros c buf Hi Hc Hb.
  - cbn [replicate run]. rewrite Z.add_0_r. reflexivity.
  - cbn [replicate run step]. rewrite ISR_pde_hold by (destruct b; lia).
    cbn [mbind outcome_bind]. rewrite Nat2Z.id, list_insert_insert_eq.
    rewrite IH by lia.
    replace (c + 1 + Z.of_nat k) with (c + Z.of_nat (S k)) by lia.
    reflexivity.
Qed.

(** One whole pulse: the edge tick and the ticks that hold the level. *)
Lemma run_pulse (a : bool) (i : nat) nop out (d c : Z) buf :
  (S i < 200)%nat -> (a = true -> 0 <= c <= 598) ->
  1 <= d <= (if a then 65535 else 599) ->
  run ISR_pde (replicate (Z.to_nat d) (Tick a))
      (Machine buf (Z.of_nat i) nop (level_state (negb a)) c out)
  = Done (Machine (<[S i := d]> buf) (Z.of_nat (S i)) nop (level_state a) d out).
Proof.
  intros Hi Hc Hd. assert (Hd1 : 1 <= d) by (destruct a; lia).
  replace (Z.to_nat d) with (S (Z.to_nat (d - 1))) by lia.
  cbn [replicate run step]. rewrite ISR_pde_edge by first [lia | exact Hc].
  cbn [mbind outcome_bind].
  replace (Z.to_nat (Z.of_nat i + 1)) with (S i) by lia.
  replace (Z.of_nat i + 1) with (Z.of_nat (S i)) by lia.
  rewrite run_hold by (destruct a; lia).
  replace (1 + Z.of_nat (Z.to_nat (d - 1))) with d by lia.
  reflexivity.
Qed.

Lemma run_pulse_train nop out (ps : list Z) :
  forall (a : bool) (i : nat) (c : Z) buf,
  (i + length ps < 200)%nat -> (a = true -> 0 <= c <= 598) ->
  pulses_ok a ps ->
  run ISR_pde (pulse_samples a ps)
      (Machine buf (Z.of_nat i) nop (level_state (negb a)) c out)
  = Done (Machine (store_pulses (S i) ps buf) (Z.of_nat (i + length ps)) nop
                  (level_state (final_level (negb a) ps)) (last_count c ps) out).
Proof.
  induction ps as [|d ps IH]; intros a i c buf Hi Hc Hok.
  - cbn [pulse_samples run store_pulses length final_level last_count].
    rewrite Nat.add_0_r. reflexivity.
  - cbn [pulse_samples store_pulses length final_level last_count] in *.
    destruct Hok as [Hd Hok].
    rewrite run_app, run_pulse by (destruct a; lia).
    cbn [mbind outcome_bind].
    rewrite <- (negb_involutive a) at 2.
    rewrite IH by (done || lia || (destruct a; [discriminate | lia])).
    rewrite negb_involutive.
    replace (S i + length ps)%nat with (i + S (length ps))%nat by lia.
    reflexivity.
Qed.

Lemma store_pulses_length (ps : list Z) :
  forall i buf, length (store_pulses i ps buf) = length buf.
Proof.
  induction ps as [|d ps IH]; intros i buf; cbn [store_pulses]; [reflexivity|].
  rewrite IH. apply length_insert.
Qed.

Lemma store_pulses_snoc (ps : list Z) (x : Z) :
  forall i buf,
  store_pulses i (ps ++ [x]) buf = <[(i + length ps)%nat := x]> (store_pulses i ps buf).
Proof.
  induction ps as [|d ps IH]; intros i buf; cbn [app store_pulses length].
  - rewrite Nat.add_0_r. reflexivity.
  - rewrite IH. f_equal. lia.
Qed.

Lemma take_store_pulses (ps : list Z) :
  forall i buf, (i + length ps <= length buf)%nat ->
  take (i + length ps) (store_pulses i ps buf) = take i buf ++ ps.
Proof.
  induction ps as [|d ps IH]; intros i buf Hlen; cbn [store_pulses length] in *.
  - rewrite Nat.add_0_r, app_nil_r. reflexivity.
  - replace (i + S (length ps))%nat with (S i + length ps)%nat by lia.
    rewrite IH by (rewrite length_insert; lia).
    rewrite (take_S_r _ i d) by (apply list_lookup_insert_eq; lia).
    rewrite take_insert. case_decide; [lia|].
    rewrite <- app_assoc. reflexivity.
Qed.

Lemma final_level_parity (ps : list Z) :
  forall b, final_level b ps = xorb b (Nat.odd (length ps)).
Proof.
  induction ps as [|d ps IH]; intros b; cbn [final_level length].
  - destruct b; reflexivity.
  - rewrite IH, Nat.odd_succ, <- Nat.negb_odd.
    destruct b, (Nat.odd (length ps)); reflexivity.
Qed.

Lemma run_idle (k : nat) buf i nop out :
  forall c, exists c',
  run ISR_pde (replicate k (Tick false)) (Machine buf i nop STATE_IDLE c out)
  = Done (Machine buf i nop STATE_IDLE c' out).
Proof.
  induction k as [|k IH]; intros c; [exists c; reflexivity|].
  cbn [replicate run step]. rewrite ISR_pde_idle_inactive.
  cbn [mbind outcome_bind]. apply IH.
Qed.

Lemma capture_frame_any (m : machine) (pulses : list Z) (idle : nat) (last : bool) :
  state m = STATE_IDLE -> current_ir_pulse_index m = 0 ->
  length (ir_pulses m) = 200%nat ->
  pulses_ok true pulses -> Nat.odd (length pulses) = true ->
  (length pulses < 200)%nat ->
  run ISR_pde (replicate idle (Tick false) ++ pulse_samples true pulses
               ++ replicate 599 (Tick false) ++ [Tick last]) m
  = Done (Machine (store_pulses 0 (pulses ++ [599]) (ir_pulses m)) 0
                  (Z.of_nat (length pulses)) STATE_FINISHED 0 (serial m))
  /\ take (length pulses) (store_pulses 0 (pulses ++ [599]) (ir_pulses m))
     = pulses.
Proof.
  intros Hs Hi Hlen Hok Hodd Hn. destruct m as [buf idx nop st c out].
  proj_simpl in Hs. proj_simpl in Hi. proj_simpl in Hlen. subst st idx.
  proj_simpl. destruct pulses as [|d0 ps]; [discriminate|].
  cbn [length pulses_ok negb] in *. destruct Hok as [Hd0 Hok].
  rewrite Nat.odd_succ in Hodd. split.
  - remember (replicate 599 (Tick false) ++ [Tick last]) as gap eqn:Hgap.
    rewrite run_app. destruct (run_idle idle buf 0 nop out c) as [c' ->].
    cbn [mbind outcome_bind pulse_samples].
    rewrite <- app_assoc, run_app.
    replace (Z.to_nat d0) with (S (Z.to_nat (d0 - 1))) by lia.
    cbn [replicate run step]. rewrite ISR_pde_idle_active.
    cbn [mbind outcome_bind].
    change (Machine (<[0%nat := 1]> buf) 0 nop STATE_MARK 1 out)
      with (Machine (<[0%nat := 1]> buf) (Z.of_nat 0) nop (level_state true) 1 out).
    rewrite (run_hold true 0 nop out (Z.to_nat (d0 - 1)) 1 buf) by lia.
    replace (1 + Z.of_nat (Z.to_nat (d0 - 1))) with d0 by lia.
    cbn [mbind outcome_bind]. rewrite run_app.
    change (level_state true) with (level_state (negb false)).
    rewrite (run_pulse_train nop out ps false 0 d0 (<[0%nat := d0]> buf))
      by (done || lia).
    cbn [mbind outcome_bind Nat.add].
    rewrite final_level_parity, <- Nat.negb_even, Hodd.
    change (xorb (negb false) (negb true)) with (negb false).
    subst gap.
    change (replicate 599 (Tick false))
      with (replicate (Z.to_nat 599) (Tick false)).
    rewrite run_app.
    rewrite (run_pulse false (length ps) nop out 599) by (done || lia).
    cbn [mbind outcome_bind run step level_state].
    rewrite ISR_pde_timeout by lia. cbn [mbind outcome_bind].
    cbn [app store_pulses]. rewrite store_pulses_snoc. reflexivity.
  - rewrite store_pulses_snoc. cbn [Nat.add length].
    rewrite take_insert. case_decide; [lia|].
    apply (take_store_pulses (d0 :: ps) 0 buf). cbn [length]. lia.
Qed.

Lemma capture_frame (m : machine) (pulses : list Z) (idle : nat) :
  state m = STATE_IDLE -> current_ir_pulse_index m = 0 ->
  length (ir_pulses m) = 200%nat ->
  pulses_ok true pulses -> Nat.odd (length pulses) = true ->
  (length pulses < 200)%nat ->
  run ISR_pde (replicate idle (Tick false) ++ pulse_samples true pulses
               ++ replicate 600 (Tick false)) m
  = Done (Machine (store_pulses 0 (pulses ++ [599]) (ir_pulses m)) 0
                  (Z.of_nat (length pulses)) STATE_FINISHED 0 (serial m))
  /\ take (length pulses) (store_pulses 0 (pulses ++ [599]) (ir_pulses m))
     = pulses.
Proof.
  change (replicate 600 (Tick false))
    with (replicate 599 (Tick false) ++ [Tick false]).
  apply capture_frame_any.
Qed.

(** X1: The [.pde] engine records a pulse train faithfully.  From an idle
    engine, after any number of idle ticks, a train of marks and spaces
    that starts and ends with a mark, fits the buffer and has every
    mark at most 65535 ticks and every space at most 598 ticks long,
    followed by 600 inactive ticks, ends in [STATE_FINISHED] with
    [number_of_pulses] the number of pulses of the train, the index
    back at 0 and the durations of the train, in ticks, in the first
    entries of [ir_pulses]; the entry after them holds the 599 ticks
    counted for the closing gap. *)
Theorem capture_records_pulses (m : machine) (pulses : list Z) (idle : nat) :
  state m = STATE_IDLE -> current_ir_pulse_index m = 0 ->
  length (ir_pulses m) = 200%nat ->
  pulses_ok true pulses -> Nat.odd (length pulses) = true ->
  (length pulses < 200)%nat ->
  run ISR_pde (replicate idle (Tick false) ++ pulse_samples true pulses
               ++ replicate 600 (Tick false)) m
  = Done (Machine (store_pulses 0 (pulses ++ [599]) (ir_pulses m)) 0
                  (Z.of_nat (length pulses)) STATE_FINISHED 0 (serial m))
  /\ take (length pulses) (store_pulses 0 (pulses ++ [599]) (ir_pulses m))
     = pulses.
Proof.
  intros Hs Hi Hlen Hok Hodd Hn.
  change (replicate 600 (Tick false))
    with (replicate 599 (Tick false) ++ [Tick false]).
  destruct (capture_frame_any m pulses idle false Hs Hi Hlen Hok Hodd Hn)
    as [Hrun Htake].
  split; [exact Hrun | exact Htake].
Qed.

Lemma capture_records_pulses_witness :
  run ISR_pde (replicate 2 (Tick false) ++ pulse_samples true [3; 2; 4]
               ++ replicate 600 (Tick false)) initial_machine
  = Done (Machine (store_pulses 0 ([3; 2; 4] ++ [599]) (ir_pulses initial_machine))
                  0 3 STATE_FINISHED 0 [])
  /\ take 3 (store_pulses 0 ([3; 2; 4] ++ [599]) (ir_pulses initial_machine))
     = [3; 2; 4].
Proof.
  refine (capture_records_pulses initial_machine [3; 2; 4] 2
            eq_refl eq_refl eq_refl _ eq_refl _).
  - cbn. lia.
  - cbn. lia.
Defined.

(** ** Printing the decoded word *)

Lemma land_NEC_MSB (d : Z) :
  (Z.land d NEC_MSB =? 0) = negb (Z.testbit d 31).
Proof.
  destruct (Z.testbit d 31) eqn:Hb; cbn [negb].
  - apply Z.eqb_neq. intros H0.
    assert (Hbit : Z.testbit (Z.land d NEC_MSB) 31 = true)
      by (rewrite Z.land_spec, Hb, NEC_MSB_bits; reflexivity).
    rewrite H0, Z.bits_0 in Hbit. discriminate.
  - apply Z.eqb_eq, Z.bits_inj'. intros j Hj.
    rewrite Z.land_spec, NEC_MSB_bits, Z.bits_0.
    destruct (Z.eqb_spec 31 j) as [<-|Hne]; [rewrite Hb|]; auto using andb_false_r.
Qed.

Lemma print_nec_bits_spec (n : nat) :
  forall d, (n <= 32)%nat ->
  print_nec_bits n d
  = map (fun k => Str (if Z.testbit d (31 - Z.of_nat k) then "1" else "0"))
        (seq 0 n).
Proof.
  induction n as [|n IH]; intros d Hn; [reflexivity|].
  cbn [print_nec_bits seq map]. rewrite land_NEC_MSB, negb_involutive.
  f_equal. rewrite IH by lia. rewrite <- seq_shift, map_map.
  apply map_ext_in. intros k Hk. apply in_seq in Hk.
  unfold u32. change 4294967296 with (2 ^ 32).
  rewrite Z.mod_pow2_bits_low, Z.shiftl_spec by lia.
  replace (31 - Z.of_nat k - 1) with (31 - Z.of_nat (S k)) by lia.
  reflexivity.
Qed.

(** X2: the printing loop of [try_print_nec_details] writes the 32 bits
    of [nec_data] most significant bit first, whatever the word is. *)
Theorem print_nec_bits_msb_first (w : Z) :
  print_nec_bits 32 w = msb_first_bits w
  /\ length (print_nec_bits 32 w) = 32%nat.
Proof.
  rewrite print_nec_bits_spec by lia. split; [reflexivity|].
  rewrite length_map, length_seq. reflexivity.
Qed.

(** ** From the line to the report *)

Lemma pulses_us_take (m : machine) (n : nat) :
  forall i, (i + n <= length (ir_pulses m))%nat ->
  pulses_us m n (Z.of_nat i)
  = map (fun d => u16 (d * PULSE_TIME_BLOCKS_IN_MICROSECONDS))
        (take n (drop i (ir_pulses m))).
Proof.
  induction n as [|n IH]; intros i Hi; [reflexivity|].
  cbn [pulses_us].
  assert (Hl : ir_pulses m !! i = Some (pulse_at m (Z.of_nat i))).
  { unfold pulse_at. rewrite Nat2Z.id.
    apply list_lookup_lookup_total_lt. lia. }
  rewrite (drop_S _ _ _ Hl). cbn [take map]. f_equal.
  replace (Z.of_nat i + 1) with (Z.of_nat (S i)) by lia.
  apply IH. lia.
Qed.

Lemma pulse_at_of_take (m : machine) (n : nat) (pulses : list Z) (i : Z) (x : Z) :
  take n (ir_pulses m) = pulses -> 0 <= i < Z.of_nat n ->
  pulses !! Z.to_nat i = Some x -> pulse_at m i = x.
Proof.
  intros Ht Hi Hx. unfold pulse_at. apply list_lookup_total_correct.
  rewrite <- Hx, <- Ht. symmetry. apply lookup_take_lt. lia.
Qed.

Lemma nec_frame_lookup (v : Z) (i : Z) :
  0 <= i < 67 -> nec_frame v !! Z.to_nat i = Some (nec_pulse v i).
Proof.
  intros Hi. unfold nec_frame.
  rewrite list_lookup_fmap, lookup_seq_lt by lia. cbn [fmap option_fmap option_map].
  do 2 f_equal. lia.
Qed.

Lemma nec_pulse_range (v i : Z) : 1 <= nec_pulse v i <= 598.
Proof.
  unfold nec_pulse.
  destruct (i =? 0); [lia|]. destruct (i =? 1); [lia|].
  destruct (Z.even i); [lia|]. destruct (Z.testbit v _); lia.
Qed.

Lemma pulses_ok_small (ps : list Z) :
  (forall d, In d ps -> 1 <= d <= 598) -> forall a, pulses_ok a ps.
Proof.
  induction ps as [|d ps IH]; intros H a; cbn [pulses_ok]; [exact I|].
  split.
  - specialize (H d (or_introl eq_refl)). destruct a; lia.
  - apply IH. intros d' Hd'. apply H. right. exact Hd'.
Qed.

Lemma nec_frame_In (v d : Z) : In d (nec_frame v) -> 1 <= d <= 598.
Proof.
  unfold nec_frame. intros H. apply list_elem_of_In, list_elem_of_fmap in H.
  destruct H as (n & -> & _). apply nec_pulse_range.
Qed.

Lemma nec_encodes_of_pulses (m : machine) (v : Z) :
  number_of_pulses m = 67 ->
  (forall i, 0 <= i < 67 -> pulse_at m i = nec_pulse v i) ->
  nec_encodes m v.
Proof.
  intros Hn Hp. split; [|split].
  - unfold nec_header_ok. rewrite !Hp by lia. repeat split. exact Hn.
  - intros j Hj. rewrite Hp by lia. unfold nec_pulse.
    replace (2 + 2 * j =? 0) with false by (symmetry; apply Z.eqb_neq; lia).
    replace (2 + 2 * j =? 1) with false by (symmetry; apply Z.eqb_neq; lia).
    replace (2 + 2 * j) with (2 * (1 + j)) by lia.
    rewrite Z.even_mul. reflexivity.
  - intros k Hk. rewrite Hp by lia. unfold nec_pulse.
    replace (3 + 2 * k =? 0) with false by (symmetry; apply Z.eqb_neq; lia).
    replace (3 + 2 * k =? 1) with false by (symmetry; apply Z.eqb_neq; lia).
    replace (3 + 2 * k) with (1 + 2 * (1 + k)) at 1 by lia.
    rewrite Z.even_add_mul_2.
    replace ((3 + 2 * k - 3) / 2) with k by (Z.div_mod_to_equations; lia).
    destruct (Z.testbit v k); reflexivity.
Qed.

Lemma bind_Done {A B : Type} (a : A) (k : A -> outcome B) :
  (x ← Done a; k x) = k a.
Proof. reflexivity. Qed.

Lemma run_then_loop (isr : bool -> machine -> outcome machine)
  (evs : list event) (m : machine) :
  run isr (evs ++ [Loop]) m = m' ← run isr evs m; loop m'.
Proof.
  rewrite run_app. destruct (run isr evs m) as [m1|i]; [|reflexivity].
  rewrite !bind_Done. cbn [run step]. destruct (loop m1); reflexivity.
Qed.

Lemma loop_finished (m : machine) :
  state m = STATE_FINISHED -> 0 <= number_of_pulses m <= 200 ->
  loop m = Done (set_state STATE_IDLE (serial_print (report m) m)).
Proof.
  intros Hf Hn. unfold loop. rewrite Hf.
  change (STATE_FINISHED =? STATE_FINISHED) with true. cbn iota.
  rewrite print_out_pulse_details_spec by exact Hn. reflexivity.
Qed.

(** X3: the [.pde] sketch end to end.  From an idle engine, the samples
    of the NEC frame for a 32-bit word [v], followed by 600 inactive
    ticks and one call of [loop], leave the engine idle again with the
    index at 0, and what was printed is the report of 67 pulses, their
    durations in microseconds, and the 32 bits of [v], bit 31 first. *)
Theorem nec_frame_end_to_end (m : machine) (v : Z) (idle : nat) :
  0 <= v < 4294967296 ->
  state m = STATE_IDLE -> current_ir_pulse_index m = 0 ->
  length (ir_pulses m) = 200%nat ->
  exists m',
    run ISR_pde (replicate idle (Tick false) ++ pulse_samples true (nec_frame v)
                 ++ replicate 600 (Tick false) ++ [Loop]) m = Done m'
    /\ state m' = STATE_IDLE /\ current_ir_pulse_index m' = 0
    /\ number_of_pulses m' = 67
    /\ take 67 (ir_pulses m') = nec_frame v
    /\ serial m' = serial m ++ nec_report (nec_frame v) v.
Proof.
  intros Hv Hs Hi Hlen.
  assert (Hlen67 : length (nec_frame v) = 67%nat)
    by (unfold nec_frame; rewrite length_fmap, length_seq; reflexivity).
  destruct (capture_frame m (nec_frame v) idle Hs Hi Hlen) as [Hrun Htake].
  { apply pulses_ok_small, nec_frame_In. }
  { rewrite Hlen67. reflexivity. }
  { rewrite Hlen67. lia. }
  rewrite Hlen67 in Hrun, Htake. change (Z.of_nat 67) with 67 in Hrun.
  assert (Hlen' : length (store_pulses 0 (nec_frame v ++ [599]) (ir_pulses m))
                  = 200%nat) by (rewrite store_pulses_length; exact Hlen).
  remember (store_pulses 0 (nec_frame v ++ [599]) (ir_pulses m)) as buf' eqn:Hbuf.
  clear Hbuf.
  remember (Machine buf' 0 67 STATE_FINISHED 0 (serial m)) as m1 eqn:Hm1.
  assert (Hf1 : state m1 = STATE_FINISHED) by (subst m1; reflexivity).
  assert (Hn1 : number_of_pulses m1 = 67) by (subst m1; reflexivity).
  assert (Hb1 : ir_pulses m1 = buf') by (subst m1; reflexivity).
  assert (Hi1 : current_ir_pulse_index m1 = 0) by (subst m1; reflexivity).
  assert (Ho1 : serial m1 = serial m) by (subst m1; reflexivity).
  clear Hm1.
  assert (Hp : forall i, 0 <= i < 67 -> pulse_at m1 i = nec_pulse v i).
  { intros i Hi'.
    apply (pulse_at_of_take m1 67 (nec_frame v));
      [rewrite Hb1; exact Htake | lia | apply nec_frame_lookup, Hi']. }
  assert (Hdec : nec_decode m1 = Some v)
    by (apply nec_encodes_decode; [exact Hv | apply nec_encodes_of_pulses; done]).
  assert (Hus : pulses_us m1 67 0 = map (fun d => d * 50) (nec_frame v)).
  { change (pulses_us m1 67 0) with (pulses_us m1 67 (Z.of_nat 0)).
    rewrite (pulses_us_take m1 67 0) by (rewrite Hb1, Hlen'; lia).
    rewrite drop_0, Hb1, Htake.
    apply map_ext_in. intros d Hd. apply nec_frame_In in Hd.
    apply u16_small. unfold PULSE_TIME_BLOCKS_IN_MICROSECONDS. lia. }
  exists (set_state STATE_IDLE (serial_print (report m1) m1)).
  split.
  - replace (replicate idle (Tick false) ++ pulse_samples true (nec_frame v)
             ++ replicate 600 (Tick false) ++ [Loop])
      with ((replicate idle (Tick false) ++ pulse_samples true (nec_frame v)
             ++ replicate 600 (Tick false)) ++ [Loop])
      by (rewrite <- !app_assoc; reflexivity).
    rewrite run_then_loop, Hrun, bind_Done.
    apply loop_finished; [exact Hf1 | rewrite Hn1; lia].
  - proj_simpl. rewrite Hi1, Hn1, Hb1, Ho1.
    repeat split; try reflexivity; [exact Htake|].
    f_equal. unfold report, nec_report. rewrite Hdec, Hn1.
    change (Z.to_nat 67) with 67%nat. rewrite Hus.
    rewrite print_nec_bits_spec by lia. unfold msb_first_bits.
    cbn [app]. reflexivity.
Qed.

Lemma nec_frame_end_to_end_witness :
  exists m',
    run ISR_pde (replicate 5 (Tick false)
                 ++ pulse_samples true (nec_frame 0x00FF00FF)
                 ++ replicate 600 (Tick false) ++ [Loop]) initial_machine
    = Done m'
    /\ state m' = STATE_IDLE /\ current_ir_pulse_index m' = 0
    /\ number_of_pulses m' = 67
    /\ take 67 (ir_pulses m') = nec_frame 0x00FF00FF
    /\ serial m' = serial initial_machine
                   ++ nec_report (nec_frame 0x00FF00FF) 0x00FF00FF.
Proof.
  exact (nec_frame_end_to_end initial_machine 0x00FF00FF 5
           ltac:(lia) eq_refl eq_refl eq_refl).
Defined.

(** X4: the timeout comparison of the [.pde] handler comes before the
    line is sampled, so the closing gap ends on its 600th tick whatever
    the line does on that tick: a pulse train followed by 599 inactive
    ticks and one more sample, active or not, gives the same finished
    capture; an active 600th sample starts no mark, and no later sample
    changes anything before [loop] runs. *)
Theorem capture_gap_closes_on_any_sample
  (m : machine) (pulses : list Z) (idle : nat) (last : bool) (more : list bool) :
  state m = STATE_IDLE -> current_ir_pulse_index m = 0 ->
  length (ir_pulses m) = 200%nat ->
  pulses_ok true pulses -> Nat.odd (length pulses) = true ->
  (length pulses < 200)%nat ->
  run ISR_pde (replicate idle (Tick false) ++ pulse_samples true pulses
               ++ replicate 599 (Tick false) ++ [Tick last] ++ map Tick more) m
  = Done (Machine (store_pulses 0 (pulses ++ [599]) (ir_pulses m)) 0
                  (Z.of_nat (length pulses)) STATE_FINISHED 0 (serial m)).
Proof.
  intros Hs Hi Hl Hok Hodd Hn.
  replace (replicate idle (Tick false) ++ pulse_samples true pulses
           ++ replicate 599 (Tick false) ++ [Tick last] ++ map Tick more)
    with ((replicate idle (Tick false) ++ pulse_samples true pulses
           ++ replicate 599 (Tick false) ++ [Tick last]) ++ map Tick more)
    by (rewrite <- !app_assoc; reflexivity).
  rewrite run_app.
  destruct (capture_frame_any m pulses idle last Hs Hi Hl Hok Hodd Hn)
    as [-> _].
  rewrite bind_Done. apply run_ticks_fixed. intros b.
  apply ISR_pde_finished. reflexivity.
Qed.

Lemma capture_gap_closes_on_any_sample_witness :
  run ISR_pde (replicate 0 (Tick false) ++ pulse_samples true [2]
               ++ replicate 599 (Tick false) ++ [Tick true]
               ++ map Tick [true; true; false]) initial_machine
  = Done (Machine (store_pulses 0 ([2] ++ [599]) (ir_pulses initial_machine))
                  0 1 STATE_FINISHED 0 []).
Proof.
  refine (capture_gap_closes_on_any_sample initial_machine [2] 0 true
            [true; true; false] eq_refl eq_refl eq_refl _ eq_refl _).
  - cbn. lia.
  - cbn. lia.
Defined.

(** ** Array bounds along a run *)

Lemma ISR_pde_bounded (pin_active : bool) (m : machine) :
  bounded m ->
  match ISR_pde pin_active m with
  | Done m' => bounded m'
  | OutOfBounds i => i = 200
  end.
Proof.
  intros [Hi Hn]. destruct m as [buf idx nop st c out].
  proj_simpl in Hi. proj_simpl in Hn.
  unfold ISR_pde, store_pulse, bounded. proj_simpl.
  rewrite (in_bounds_intro idx Hi).
  assert (Hnext : if in_bounds (u16 (idx + 1))
                  then 0 <= u16 (idx + 1) < 200 else u16 (idx + 1) = 200).
  { rewrite (u16_small (idx + 1)) by lia.
    destruct (in_bounds (idx + 1)) eqn:Hb.
    - apply in_bounds_true, Hb.
    - destruct (Z.eq_dec (idx + 1) 200) as [|Hne]; [done|].
      rewrite in_bounds_intro in Hb by lia. discriminate. }
  destruct (st =? STATE_FINISHED); cbn [negb]; [done|].
  destruct (st =? STATE_IDLE); [destruct pin_active; proj_simpl; done|].
  destruct (st =? STATE_MARK).
  { destruct pin_active; proj_simpl; [done|].
    destruct (in_bounds (u16 (idx + 1))); proj_simpl; done. }
  destruct (st =? STATE_SPACE); [|done].
  destruct (u16 (c + 1) >=? 600); proj_simpl; [split; lia|].
  destruct pin_active; proj_simpl; [|done].
  destruct (in_bounds (u16 (idx + 1))); proj_simpl; done.
Qed.

Lemma loop_bounded (m : machine) :
  bounded m -> exists m', loop m = Done m' /\ bounded m'.
Proof.
  intros [Hi Hn]. unfold loop.
  destruct (state m =? STATE_FINISHED); [|exists m; done].
  rewrite print_out_pulse_details_spec by lia. rewrite bind_Done.
  eexists. split; [reflexivity|]. unfold bounded. proj_simpl. done.
Qed.

(** X5: along every run of the [.pde] sketch from [setup()], ticks and
    calls of [loop] in any order, the only access outside [ir_pulses]
    that can happen is the store at index 200: as long as the run has
    not failed, the index and the pulse count are below 200 and the
    next call of [loop] reads inside the array. *)
Theorem only_store_200_is_out_of_bounds (evs : list event) :
  match run ISR_pde evs initial_machine with
  | Done m => bounded m /\ exists m', loop m = Done m'
  | OutOfBounds i => i = 200
  end.
Proof.
  assert (Hgen : forall m, bounded m ->
            match run ISR_pde evs m with
            | Done m' => bounded m'
            | OutOfBounds i => i = 200
            end).
  { induction evs as [|e evs IH]; intros m Hb; [exact Hb|].
    cbn [run]. destruct e as [b|]; cbn [step].
    - pose proof (ISR_pde_bounded b m Hb) as H1.
      destruct (ISR_pde b m) as [m1|i]; [|exact H1].
      rewrite bind_Done. apply IH, H1.
    - destruct (loop_bounded m Hb) as (m1 & -> & H1).
      rewrite bind_Done. apply IH, H1. }
  assert (H0 : bounded initial_machine) by (split; cbn; lia).
  specialize (Hgen initial_machine H0).
  destruct (run ISR_pde evs initial_machine) as [m|i]; [|exact Hgen].
  split; [exact Hgen|]. destruct (loop_bounded m Hgen) as (m' & Hm' & _).
  exists m'. exact Hm'.
Qed.

(** ** The consumer *)

Lemma print_pulses_overflow (n : nat) :
  forall i m, 0 <= i <= 200 -> 200 < i + Z.of_nat n ->
  print_pulses n i m = OutOfBounds 200.
Proof.
  induction n as [|n IH]; intros i m Hi Hn; [lia|].
  cbn [print_pulses]. unfold load_pulse.
  destruct (Z.eq_dec i 200) as [->|Hne]; [reflexivity|].
  rewrite in_bounds_intro by lia. rewrite bind_Done. apply IH; lia.
Qed.

(** X6: [print_out_pulse_details] changes no global, it only prints: for
    a pulse count up to 200 it appends the report of the frame to the
    serial output; for a larger count its loop reads [ir_pulses[200]],
    outside the array. *)
Theorem print_out_pulse_details_bounds (m : machine) :
  0 <= number_of_pulses m ->
  (number_of_pulses m <= 200 ->
   print_out_pulse_details m = Done (serial_print (report m) m))
  /\ (200 < number_of_pulses m ->
      print_out_pulse_details m = OutOfBounds 200).
Proof.
  intros H0. split; intros Hn.
  - apply print_out_pulse_details_spec. lia.
  - unfold print_out_pulse_details.
    rewrite print_pulses_overflow by (proj_simpl; lia). reflexivity.
Qed.

Lemma print_out_pulse_details_bounds_witness :
  print_out_pulse_details (frame_machine [180; 90; 11])
  = Done (serial_print (report (frame_machine [180; 90; 11]))
                       (frame_machine [180; 90; 11]))
  /\ print_out_pulse_details (set_number_of_pulses 201 initial_machine)
     = OutOfBounds 200.
Proof.
  split.
  - refine (proj1 (print_out_pulse_details_bounds (frame_machine [180; 90; 11]) _) _);
      cbn; lia.
  - refine (proj2 (print_out_pulse_details_bounds
                     (set_number_of_pulses 201 initial_machine) _) _);
      cbn; lia.
Defined.

(** X7: a frame is reported once.  After a call of [loop] the state is
    not [STATE_FINISHED], so a second call right after it prints
    nothing and changes nothing. *)
Theorem loop_reports_once (m m' : machine) :
  loop m = Done m' ->
  state m' <> STATE_FINISHED /\ loop m' = Done m'.
Proof.
  unfold loop at 1. destruct (Z.eqb_spec (state m) STATE_FINISHED) as [Hf|Hnf].
  - destruct (print_out_pulse_details m) as [m1|i]; [|discriminate].
    rewrite bind_Done. intros [= <-]. split; [discriminate | reflexivity].
  - intros [= <-]. split; [exact Hnf|].
    unfold loop. destruct (Z.eqb_spec (state m) STATE_FINISHED); done.
Qed.

Lemma loop_reports_once_witness :
  exists m', loop (frame_machine [180; 90; 11]) = Done m'
             /\ state m' <> STATE_FINISHED /\ loop m' = Done m'.
Proof.
  eexists. split; [vm_compute; reflexivity|].
  apply (loop_reports_once (frame_machine [180; 90; 11])).
  vm_compute. reflexivity.
Defined.

(** ** More on tolerance matching and acceptance *)

(** X8: for 16-bit arguments [is_pulse_match] is the symmetric 150 us
    margin test against the observed duration reduced modulo 65536 us,
    whenever that reduced duration is at least 150 us and at most
    65385 us, or the expected value lies between 300 and 65235. *)
Theorem is_pulse_match_symmetric_margin (e t : Z) :
  0 <= e < 65536 -> 0 <= t < 65536 ->
  150 <= u16 (t * 50) <= 65385 \/ 300 <= e <= 65235 ->
  is_pulse_match e t = true <-> Z.abs (e - u16 (t * 50)) <= 150.
Proof.
  intros He Ht Hr. unfold is_pulse_match,
    PULSE_TIME_BLOCKS_IN_MICROSECONDS, PULSE_DECODING_MARGIN_OF_ERROR.
  rewrite andb_true_iff, Z.leb_le, Z.geb_le.
  assert (Ha : 0 <= u16 (t * 50) < 65536) by (apply Z.mod_pos_bound; lia).
  revert Hr Ha. generalize (u16 (t * 50)). intros a Hr Ha.
  unfold u16. split; intros H; Z.div_mod_to_equations; lia.
Qed.

Lemma is_pulse_match_symmetric_margin_witness :
  is_pulse_match 560 1320 = true <-> Z.abs (560 - u16 (1320 * 50)) <= 150.
Proof.
  apply is_pulse_match_symmetric_margin; [lia | lia | right; lia].
Defined.

(** X9: the tick counts the decoder accepts for each of its four
    durations, for pulses of at most 1310 ticks: 177 to 183 for the
    9000 us leader mark, 87 to 93 for the 4500 us leader space, and 9
    to 14 both for a 560 us mark and for a 565 us one-space. *)
Theorem nec_tick_windows (t : Z) :
  0 <= t <= 1310 ->
  (is_pulse_match 9000 t = true <-> 177 <= t <= 183)
  /\ (is_pulse_match 4500 t = true <-> 87 <= t <= 93)
  /\ (is_pulse_match 560 t = true <-> 9 <= t <= 14)
  /\ (is_pulse_match 565 t = true <-> 9 <= t <= 14).
Proof.
  intros Ht.
  split; [|split; [|split]];
    (split; intros H;
     [ apply is_pulse_match_in_range in H; [lia | lia | lia | right; lia]
     | apply is_pulse_match_in_range; [lia | lia | right; lia | lia] ]).
Qed.

Lemma nec_tick_windows_witness :
  (is_pulse_match 9000 180 = true <-> 177 <= 180 <= 183)
  /\ (is_pulse_match 4500 180 = true <-> 87 <= 180 <= 93)
  /\ (is_pulse_match 560 180 = true <-> 9 <= 180 <= 14)
  /\ (is_pulse_match 565 180 = true <-> 9 <= 180 <= 14).
Proof. apply nec_tick_windows. lia. Defined.

Lemma nec_decode_header (m : machine) (w : Z) :
  nec_decode m = Some w -> nec_header_ok m.
Proof.
  unfold nec_decode, nec_header_ok.
  destruct (Z.eqb_spec (number_of_pulses m) 67) as [Hn|Hn]; [|discriminate].
  destruct (is_pulse_match 9000 _); [|discriminate].
  destruct (is_pulse_match 4500 _); [|discriminate].
  destruct (is_pulse_match 560 (pulse_at m 66)); [|discriminate].
  done.
Qed.

(** X10: [try_print_nec_details] returns 1 exactly for the frames with 67
    pulses whose leader mark, leader space and stop mark match and
    whose marks at the indices 4, 6, ..., 64 match 560 us; otherwise it
    returns 0 and prints nothing.  In particular a frame whose pulse
    count is not 67 is rejected whatever its pulses are. *)
Theorem try_print_nec_details_accepts_iff (m : machine) :
  (fst (try_print_nec_details m) = 1 <-> nec_header_ok m /\ nec_marks_ok m)
  /\ (fst (try_print_nec_details m) = 0 \/ fst (try_print_nec_details m) = 1)
  /\ (fst (try_print_nec_details m) = 0 -> snd (try_print_nec_details m) = m)
  /\ (number_of_pulses m <> 67 -> try_print_nec_details m = (0, m)).
Proof.
  unfold try_print_nec_details. split; [split|split; [|split]].
  - destruct (nec_decode m) as [w|] eqn:Hdec; [|discriminate].
    intros _. split; [eapply nec_decode_header, Hdec|].
    intros j Hj.
    destruct (is_pulse_match 560 (pulse_at m (4 + 2 * j))) eqn:Hm; [done|].
    rewrite (nec_decode_bad_mark m j Hj Hm) in Hdec. discriminate.
  - intros [Hh Hm]. rewrite (nec_decode_accepts m Hh Hm). reflexivity.
  - destruct (nec_decode m); [right | left]; reflexivity.
  - destruct (nec_decode m); [discriminate | reflexivity].
  - intros Hn. unfold nec_decode.
    replace (number_of_pulses m =? 67) with false
      by (symmetry; apply Z.eqb_neq, Hn).
    reflexivity.
Qed.
